(** * Steel production planning: the Pyomo model of [Steel_Planning.ipynb]

    The notebook declares a two-variable linear program with Pyomo, hands it
    to GLPK and prints what comes back.  This development embeds

    - the data and the component declarations of the complete script,
    - the meaning of a declared model (feasible points, optima),
    - the run of the script as a trace of events against the replies of its
      environment (the tool look-ups of the installation cell, the solver),
    - the run of the whole notebook from top to bottom: the installation
      cell, the program cell by cell, and the complete script again,

    over exact rational arithmetic: a Python number is a [Q], the solver's
    floating point and its tolerance are not modelled. *)

From Stdlib Require Import List String Bool ZArith QArith Qabs Qround Qminmax Reals Qreals Psatz.
Import ListNotations.

Open Scope string_scope.
Open Scope Q_scope.

(** ** Python side: exceptions and the outcome of a statement *)

Inductive exn : Type :=
| ZeroDivisionError
| AssertionError
| AttributeError
| ValueError
| ApplicationError.

Inductive outcome (A : Type) : Type :=
| Done (a : A)
| Raised (e : exn).

Arguments Done {A} a.
Arguments Raised {A} e.

(** Python's [a / b] on numbers. *)
Definition truediv (a b : Q) : outcome Q :=
  if Qeq_bool b 0 then Raised ZeroDivisionError else Done (a / b).

(** ** Data *)

Record Data : Type := mkData {
  pB : Q; pC : Q;
  rB : Q; rC : Q;
  dB : Q; dC : Q;
  T : Q
}.

(** The literals of the script. *)
Definition steel_data : Data :=
  {| pB := 25; pC := 30; rB := 200; rC := 140; dB := 6000; dC := 4000; T := 40 |}.

(** ** Pyomo side: expressions and components *)

Inductive expr : Type :=
| Num (q : Q)
| Ref (v : string)
| Sum (a b : expr)
| Prod (a b : expr).

Inductive domain : Type := Reals_ | NonNegativeReals | Integers | Binary.

Inductive sense : Type := minimize | maximize.

Inductive relation : Type := LessEq | GreaterEq | Equal.

Inductive component : Type :=
| Var (dom : domain) (bounds : option Q * option Q)
| Objective (e : expr) (s : sense)
| Constraint (lhs : expr) (rel : relation) (rhs : expr).

(** A model is the list of its named components, in declaration order. *)
Definition ConcreteModel : Type := list (string * component).

Definition ConcreteModel_new : ConcreteModel := [].

Definition add_component (model : ConcreteModel) (name : string) (c : component)
  : ConcreteModel := (model ++ [(name, c)])%list.

Fixpoint getattr (model : ConcreteModel) (name : string) : option component :=
  match model with
  | [] => None
  | (n, c) :: rest => if String.eqb n name then Some c else getattr rest name
  end.

(** ** Shape of expressions and components *)

Fixpoint constant (e : expr) : bool :=
  match e with
  | Num _ => true
  | Ref _ => false
  | Sum a b => constant a && constant b
  | Prod a b => constant a && constant b
  end.

Fixpoint linear (e : expr) : bool :=
  match e with
  | Num _ => true
  | Ref _ => true
  | Sum a b => linear a && linear b
  | Prod a b => (constant a && linear b) || (linear a && constant b)
  end.

Definition continuous (dom : domain) : bool :=
  match dom with
  | Reals_ | NonNegativeReals => true
  | Integers | Binary => false
  end.

Definition is_var (c : component) : bool :=
  match c with Var _ _ => true | _ => false end.

Definition is_objective (c : component) : bool :=
  match c with Objective _ _ => true | _ => false end.

Definition is_constraint (c : component) : bool :=
  match c with Constraint _ _ _ => true | _ => false end.

Definition bounded_continuous_var (c : component) : bool :=
  match c with
  | Var dom (Some _, Some _) => continuous dom
  | _ => false
  end.

Definition linear_maximize_objective (c : component) : bool :=
  match c with
  | Objective e maximize => linear e
  | _ => false
  end.

Definition linear_le_constraint (c : component) : bool :=
  match c with
  | Constraint lhs LessEq rhs => linear lhs && linear rhs
  | _ => false
  end.

Definition count (p : component -> bool) (model : ConcreteModel) : nat :=
  List.length (filter (fun nc => p (snd nc)) model).

(** ** Meaning of a model over the rationals *)

Definition assignment : Type := string -> Q.

Fixpoint eval (a : assignment) (e : expr) : Q :=
  match e with
  | Num q => q
  | Ref v => a v
  | Sum x y => eval a x + eval a y
  | Prod x y => eval a x * eval a y
  end.

Definition is_integer (q : Q) : bool := Qeq_bool q (inject_Z (Qfloor q)).

Definition in_domain (dom : domain) (q : Q) : bool :=
  match dom with
  | Reals_ => true
  | NonNegativeReals => Qle_bool 0 q
  | Integers => is_integer q
  | Binary => Qeq_bool q 0 || Qeq_bool q 1
  end.

Definition above (lb : option Q) (q : Q) : bool :=
  match lb with Some l => Qle_bool l q | None => true end.

Definition below (ub : option Q) (q : Q) : bool :=
  match ub with Some u => Qle_bool q u | None => true end.

Definition holds (rel : relation) (x y : Q) : bool :=
  match rel with
  | LessEq => Qle_bool x y
  | GreaterEq => Qle_bool y x
  | Equal => Qeq_bool x y
  end.

Definition satisfies (a : assignment) (nc : string * component) : bool :=
  match nc with
  | (name, Var dom (lb, ub)) =>
      in_domain dom (a name) && above lb (a name) && below ub (a name)
  | (_, Objective _ _) => true
  | (_, Constraint lhs rel rhs) => holds rel (eval a lhs) (eval a rhs)
  end.

Definition feasible (model : ConcreteModel) (a : assignment) : bool :=
  forallb (satisfies a) model.

Definition no_worse (s : sense) (z z' : Q) : Prop :=
  match s with
  | maximize => z' <= z
  | minimize => z <= z'
  end.

(** [a] is an optimal solution: feasible, and no feasible point does better
    on any declared objective. *)
Definition optimum (model : ConcreteModel) (a : assignment) : Prop :=
  feasible model a = true /\
  forall name e s, In (name, Objective e s) model ->
  forall a', feasible model a' = true -> no_worse s (eval a e) (eval a' e).

(** [z] is the optimal value of the objective called [name]. *)
Definition optimal_value (model : ConcreteModel) (name : string) (z : Q) : Prop :=
  exists a e s, optimum model a /\ getattr model name = Some (Objective e s) /\
                z == eval a e.

(** ** The solver's reply *)

Module SolverStatus.
Inductive t : Type := ok | warning | error | aborted | unknown.
Definition eqb (x y : t) : bool :=
  match x, y with
  | ok, ok | warning, warning | error, error
  | aborted, aborted | unknown, unknown => true
  | _, _ => false
  end.
End SolverStatus.

Module TerminationCondition.
Inductive t : Type := optimal | infeasible | unbounded | other.
Definition eqb (x y : t) : bool :=
  match x, y with
  | optimal, optimal | infeasible, infeasible
  | unbounded, unbounded | other, other => true
  | _, _ => false
  end.
End TerminationCondition.

Record SolverInfo : Type := mkInfo {
  Status : SolverStatus.t;
  Termination_condition : TerminationCondition.t
}.

(** [sol] of the script; [sol['Solver']] is a list of information blocks. *)
Record SolverResults : Type := mkResults { Solver : list SolverInfo }.

(** The values of the model's variables; [None] is Python's [None] of a
    variable that never received a value. *)
Definition values : Type := string -> option Q.

(** The assignment, and the variable values, with [xB] and [xC] as given. *)
Definition point (xB xC : Q) : assignment :=
  fun v => if String.eqb v "xB" then xB else if String.eqb v "xC" then xC else 0.

Definition at_point (xB xC : Q) : values := fun v => Some (point xB xC v).

(** What [SolverFactory('glpk').solve(model, tee=True)] does: it raises when
    no solver executable is found, else it returns the results object and
    leaves the variables with the values [vals]. *)
Inductive reply : Type :=
| Unavailable
| Solved (sol : SolverResults) (vals : values).

Definition solver : Type := ConcreteModel -> reply.

(** ** Events of a run *)

Inductive pyval : Type :=
| Text (s : string)
| Number (q : Q)
| PyNone
| Info (i : SolverInfo).

Inductive event : Type :=
| Shell (cmd : string)
| SetAttr (name : string) (c : component)
| Solve (model : ConcreteModel)
| Call (name : string)
| Printed (items : list pyval).

(** A statement leaves a trace and either a value or an exception. *)
Definition Run (A : Type) : Type := (list event * outcome A)%type.

Definition ret {A : Type} (a : A) : Run A := ([], Done a).

Definition bind {A B : Type} (m : Run A) (k : A -> Run B) : Run B :=
  match m with
  | (t, Done a) => let (t', r) := k a in ((t ++ t')%list, r)
  | (t, Raised e) => (t, Raised e)
  end.

Notation "x <- m ;; k" := (bind m (fun x => k))
  (at level 61, m at next level, right associativity).
Notation "m ;;; k" := (bind m (fun _ => k))
  (at level 61, right associativity).

Definition emit (e : event) : Run unit := ([e], Done tt).

Definition raise {A : Type} (e : exn) : Run A := ([], Raised e).

Definition lift {A : Type} (o : outcome A) : Run A := ([], o).

Definition trace {A : Type} (r : Run A) : list event := fst r.

Definition result {A : Type} (r : Run A) : outcome A := snd r.

(** [for x in xs: body]. *)
Fixpoint for_each {A : Type} (xs : list A) (body : A -> Run unit) : Run unit :=
  match xs with
  | [] => ret tt
  | x :: rest => body x ;;; for_each rest body
  end.

(** [try: body except: pass]. *)
Definition try_except_pass (body : Run unit) : Run unit :=
  (fst body, Done tt).

Definition assert_ (b : bool) : Run unit :=
  if b then ret tt else raise AssertionError.

Definition print (items : list pyval) : Run unit := emit (Printed items).

(** ** The installation cell *)

Record Env : Type := mkEnv {
  which_pyomo : bool;            (* shutil.which("pyomo") finds something *)
  which_pyomo_after_pip : bool;  (* the same look-up after pip has run *)
  which_glpk : bool;             (* shutil.which("glpk") *)
  isfile_glpk : bool;            (* os.path.isfile("glpk") *)
  google_colab : bool            (* "google.colab" in sys.modules *)
}.

Definition install (env : Env) : Run unit :=
  (if negb (which_pyomo env) then
     emit (Shell "pip install -q pyomo") ;;;
     assert_ (which_pyomo_after_pip env)
   else ret tt) ;;;
  if negb (which_glpk env || isfile_glpk env) then
    if google_colab env then
      emit (Shell "apt-get install -y -qq glpk-utils")
    else
      try_except_pass (emit (Shell "conda install -c conda-forge glpk "))
  else ret tt.

(** ** The complete script *)

Definition setattr (model : ConcreteModel) (name : string) (c : component)
  : Run ConcreteModel :=
  emit (SetAttr name c) ;;; ret (add_component model name c).

(** Model construction: the four declarations. *)
Definition construct (d : Data) : Run ConcreteModel :=
  model <- ret ConcreteModel_new ;;
  model <- setattr model "xB" (Var NonNegativeReals (Some 0, Some (dB d))) ;;
  model <- setattr model "xC" (Var NonNegativeReals (Some 0, Some (dC d))) ;;
  model <- setattr model "cost"
             (Objective (Sum (Prod (Num (pB d)) (Ref "xB"))
                             (Prod (Num (pC d)) (Ref "xC"))) maximize) ;;
  cB <- lift (truediv 1 (rB d)) ;;
  cC <- lift (truediv 1 (rC d)) ;;
  setattr model "cnstr1"
    (Constraint (Sum (Prod (Num cB) (Ref "xB")) (Prod (Num cC) (Ref "xC")))
                LessEq (Num (T d))).

Definition solve (glpk : solver) (model : ConcreteModel)
  : Run (SolverResults * values) :=
  emit (Solve model) ;;;
  match glpk model with
  | Unavailable => raise ApplicationError
  | Solved sol vals => ret (sol, vals)
  end.

(** The value of an expression under the variables' current values; [None]
    when a variable it mentions has no value.  Sums and products are exact;
    Python's are binary floating point and agree with them as long as every
    operand and result is an integer of magnitude at most 2^53. *)
Fixpoint value (vals : values) (e : expr) : option Q :=
  match e with
  | Num q => Some q
  | Ref v => vals v
  | Sum x y =>
      match value vals x, value vals y with
      | Some p, Some q => Some (p + q)
      | _, _ => None
      end
  | Prod x y =>
      match value vals x, value vals y with
      | Some p, Some q => Some (p * q)
      | _, _ => None
      end
  end.

(** [model.name()]: a variable answers its value (possibly [None]), an
    expression is evaluated and raises on a variable without value.  A number
    is reported by value, in lowest terms. *)
Definition call (model : ConcreteModel) (vals : values) (name : string)
  : Run pyval :=
  emit (Call name) ;;;
  match getattr model name with
  | None => raise AttributeError
  | Some (Var _ _) =>
      ret (match vals name with Some q => Number (Qred q) | None => PyNone end)
  | Some (Objective e _) | Some (Constraint e _ _) =>
      match value vals e with
      | Some q => ret (Number (Qred q))
      | None => raise ValueError
      end
  end.

Definition tab : string := String (Ascii.ascii_of_nat 9) EmptyString.

Definition z_label : string := "Optimal solution value: z =".
Definition bands_label : string := tab ++ "Production of bands:".
Definition coils_label : string := tab ++ "Production of coils:".

(** Result reporting: the status loop, then the three queries. *)
Definition report (model : ConcreteModel) (sol : SolverResults) (vals : values)
  : Run unit :=
  for_each (Solver sol) (fun info => print [Info info]) ;;;
  z <- call model vals "cost" ;;
  print [Text z_label; z] ;;;
  print [Text "Decision variables:"] ;;;
  xb <- call model vals "xB" ;;
  print [Text bands_label; xb] ;;;
  xc <- call model vals "xC" ;;
  print [Text coils_label; xc].

Definition complete_script (d : Data) (glpk : solver) : Run unit :=
  model <- construct d ;;
  answered <- solve glpk model ;;
  report model (fst answered) (snd answered).

(** ** The notebook cell by cell *)

(** The cells before the complete script hold the same program one statement
    group at a time; what a cell reads from the cells before it is passed to
    it.  The data cell is [d]; the import cell has no effect of its own. *)

(** [model = ConcreteModel()]. *)
Definition cell_model : Run ConcreteModel := ret ConcreteModel_new.

Definition cell_variables (d : Data) (model : ConcreteModel)
  : Run ConcreteModel :=
  model <- setattr model "xB" (Var NonNegativeReals (Some 0, Some (dB d))) ;;
  setattr model "xC" (Var NonNegativeReals (Some 0, Some (dC d))).

Definition cell_objective (d : Data) (model : ConcreteModel)
  : Run ConcreteModel :=
  setattr model "cost"
    (Objective (Sum (Prod (Num (pB d)) (Ref "xB"))
                    (Prod (Num (pC d)) (Ref "xC"))) maximize).

Definition cell_constraint (d : Data) (model : ConcreteModel)
  : Run ConcreteModel :=
  cB <- lift (truediv 1 (rB d)) ;;
  cC <- lift (truediv 1 (rC d)) ;;
  setattr model "cnstr1"
    (Constraint (Sum (Prod (Num cB) (Ref "xB")) (Prod (Num cC) (Ref "xC")))
                LessEq (Num (T d))).

Definition cell_solve (glpk : solver) (model : ConcreteModel)
  : Run (SolverResults * values) :=
  solve glpk model.

Definition cell_status (sol : SolverResults) : Run unit :=
  for_each (Solver sol) (fun info => print [Info info]).

Definition cell_report (model : ConcreteModel) (vals : values) : Run unit :=
  z <- call model vals "cost" ;;
  print [Text z_label; z] ;;;
  print [Text "Decision variables:"] ;;;
  xb <- call model vals "xB" ;;
  print [Text bands_label; xb] ;;;
  xc <- call model vals "xC" ;;
  print [Text coils_label; xc].

Definition step_by_step (d : Data) (glpk : solver) : Run unit :=
  model <- cell_model ;;
  model <- cell_variables d model ;;
  model <- cell_objective d model ;;
  model <- cell_constraint d model ;;
  answered <- cell_solve glpk model ;;
  cell_status (fst answered) ;;;
  cell_report model (snd answered).

(** The notebook run from top to bottom; the run stops at the first cell
    that raises. *)
Definition notebook (env : Env) (d : Data) (glpk : solver) : Run unit :=
  install env ;;; step_by_step d glpk ;;; complete_script d glpk.

(** ** Reading a trace *)

Fixpoint printed_number (label : string) (t : list event) : option Q :=
  match t with
  | [] => None
  | Printed [Text s; Number q] :: rest =>
      if String.eqb s label then Some q else printed_number label rest
  | _ :: rest => printed_number label rest
  end.

Definition is_call (e : event) : bool :=
  match e with Call _ => true | _ => false end.

Definition is_status_print (e : event) : bool :=
  match e with Printed [Info _] => true | _ => false end.

(** The lines of the status loop and of the three queries, as a run that
    completes leaves them in its trace. *)
Definition status_lines (sol : SolverResults) : list event :=
  map (fun info => Printed [Info info]) (Solver sol).

Definition value_lines (z xB xC : pyval) : list event :=
  [ Call "cost"; Printed [Text z_label; z];
    Printed [Text "Decision variables:"];
    Call "xB"; Printed [Text bands_label; xB];
    Call "xC"; Printed [Text coils_label; xC] ].

Definition declarations (model : ConcreteModel) : list event :=
  map (fun nc => SetAttr (fst nc) (snd nc)) model.

(** The step of the notebook an event belongs to. *)
Inductive step : Type := Installation | Construction | Solving | Reporting.

Definition step_of (e : event) : step :=
  match e with
  | Shell _ => Installation
  | SetAttr _ _ => Construction
  | Solve _ => Solving
  | Call _ | Printed _ => Reporting
  end.

(** ** What is expected of the solver *)

(** [sol.solver.status] and [sol.solver.termination_condition] read the first
    information block. *)
Definition reports_optimal (sol : SolverResults) : bool :=
  match Solver sol with
  | i :: _ => SolverStatus.eqb (Status i) SolverStatus.ok &&
              TerminationCondition.eqb (Termination_condition i)
                                       TerminationCondition.optimal
  | [] => false
  end.

Definition loaded (model : ConcreteModel) (vals : values) : bool :=
  forallb (fun nc => if is_var (snd nc)
                     then match vals (fst nc) with Some _ => true | None => false end
                     else true) model.

Definition total (vals : values) : assignment :=
  fun v => match vals v with Some q => q | None => 0 end.

(** The solver keeps its word on [model]: when it reports an optimal
    termination, every variable has a value and the values are an optimum. *)
Definition faithful (glpk : solver) (model : ConcreteModel) : Prop :=
  match glpk model with
  | Unavailable => True
  | Solved sol vals =>
      reports_optimal sol = true ->
      loaded model vals = true /\ optimum model (total vals)
  end.

(** ** The same model over the reals *)

Definition assignmentR : Type := string -> R.

Fixpoint evalR (a : assignmentR) (e : expr) : R :=
  match e with
  | Num q => Q2R q
  | Ref v => a v
  | Sum x y => (evalR a x + evalR a y)%R
  | Prod x y => (evalR a x * evalR a y)%R
  end.

Definition holdsR (rel : relation) (x y : R) : Prop :=
  match rel with
  | LessEq => (x <= y)%R
  | GreaterEq => (y <= x)%R
  | Equal => x = y
  end.

Definition pointR (xB xC : R) : assignmentR :=
  fun v => if String.eqb v "xB" then xB else if String.eqb v "xC" then xC else 0%R.

(** [model.cnstr1] at a point, rational and real. *)
Definition cnstr1_holds (model : ConcreteModel) (a : assignment) : bool :=
  match getattr model "cnstr1" with
  | Some c => is_constraint c && satisfies a ("cnstr1", c)
  | None => false
  end.

Definition cnstr1_holdsR (model : ConcreteModel) (a : assignmentR) : Prop :=
  match getattr model "cnstr1" with
  | Some (Constraint lhs rel rhs) => holdsR rel (evalR a lhs) (evalR a rhs)
  | _ => False
  end.

(** ** The specification's formulas *)

(** The capacity constraint as the specification writes it:
    xB/rB + xC/rC <= T. *)
Definition capacity_spec (d : Data) (xB xC : Q) : Prop :=
  xB / rB d + xC / rC d <= T d.

Definition capacity_specR (d : Data) (xB xC : R) : Prop :=
  (xB / Q2R (rB d) + xC / Q2R (rC d) <= Q2R (T d))%R.

(** The variable bounds of the data model: 0 <= x <= d. *)
Definition within_bounds (d : Data) (xB xC : Q) : Prop :=
  (0 <= xB /\ xB <= dB d) /\ (0 <= xC /\ xC <= dC d).

(** The analytic optimum: the hours go first to the product that earns more
    per hour, up to its demand, the remaining hours to the other one. *)
Definition closed_form (d : Data) : Q * Q :=
  if Qle_bool (pC d * rC d) (pB d * rB d) then
    let hB := Qmin (dB d / rB d) (T d) in
    let hC := Qmin (dC d / rC d) (T d - hB) in
    (hB * rB d, hC * rC d)
  else
    let hC := Qmin (dC d / rC d) (T d) in
    let hB := Qmin (dB d / rB d) (T d - hC) in
    (hB * rB d, hC * rC d).

(** Data for which the analytic optimum is meant. *)
Definition sensible (d : Data) : Prop :=
  0 <= pB d /\ 0 <= pC d /\ 0 < rB d /\ 0 < rC d /\
  0 <= dB d /\ 0 <= dC d /\ 0 <= T d.

Definition with_T (d : Data) (t : Q) : Data :=
  {| pB := pB d; pC := pC d; rB := rB d; rC := rC d;
     dB := dB d; dC := dC d; T := t |}.

Definition with_dB (d : Data) (b : Q) : Data :=
  {| pB := pB d; pC := pC d; rB := rB d; rC := rC d;
     dB := b; dC := dC d; T := T d |}.

(** The model the script declares from [d] (empty when a declaration
    raises). *)
Definition model_of (d : Data) : ConcreteModel :=
  match result (construct d) with
  | Done model => model
  | Raised _ => ConcreteModel_new
  end.

Definition steel_model : ConcreteModel := model_of steel_data.

(** ** Control-flow readings *)

(** A program without branch or loop performs the same sequence of steps in
    every run that completes, whatever its environment answers. *)
Definition straight_line (prog : Env -> solver -> Run unit) : Prop :=
  forall env glpk env' glpk',
    result (prog env glpk) = Done tt ->
    result (prog env' glpk') = Done tt ->
    map step_of (trace (prog env glpk)) = map step_of (trace (prog env' glpk')).

(** The solution values are queried only when the status says optimal. *)
Definition queries_guarded_by_status (d : Data) : Prop :=
  forall glpk model sol vals,
    result (construct d) = Done model ->
    glpk model = Solved sol vals ->
    existsb is_call (trace (complete_script d glpk)) = true ->
    reports_optimal sol = true.

(** No status line is printed after a query. *)
Fixpoint status_before_queries (t : list event) : bool :=
  match t with
  | [] => true
  | e :: rest =>
      (if is_call e then negb (existsb is_status_print rest) else true) &&
      status_before_queries rest
  end.

(** All events of [t] belong to step [s]. *)
Definition all_in (s : step) (t : list event) : Prop :=
  Forall (fun e => step_of e = s) t.

(** One execution of the program: declarations, at most one solver call,
    reporting, in this order. *)
Definition one_execution (t : list event) : Prop :=
  exists t2 t3 t4,
    t = (t2 ++ t3 ++ t4)%list /\
    all_in Construction t2 /\
    all_in Solving t3 /\ (List.length t3 <= 1)%nat /\
    all_in Reporting t4.

(** How many times a trace has called the solver. *)
Fixpoint solver_calls (t : list event) : nat :=
  match t with
  | [] => 0
  | Solve _ :: rest => S (solver_calls rest)
  | _ :: rest => solver_calls rest
  end.

(** The steps are executed once: no run calls the solver a second time. *)
Definition four_steps_once : Prop :=
  forall env d glpk, (solver_calls (trace (notebook env d glpk)) <= 1)%nat.

(** Were the variables the only state, [shutil.which("pyomo")], evaluated
    before pip and again in the assertion with no variable assigned in
    between, would answer the same: whenever pip has run, the assertion
    would fail. *)
Definition no_state_beyond_variables : Prop :=
  forall env,
    In (Shell "pip install -q pyomo") (trace (install env)) ->
    result (install env) = Raised AssertionError.

(** ** Environments used as examples *)

Definition optimal_info : SolverInfo :=
  mkInfo SolverStatus.ok TerminationCondition.optimal.

Definition infeasible_info : SolverInfo :=
  mkInfo SolverStatus.warning TerminationCondition.infeasible.

(** A solver that answers "optimal" with the given values. *)
Definition glpk_answering (xB xC : Q) : solver :=
  fun _ => Solved (mkResults [optimal_info]) (at_point xB xC).

(** A solver that found the model infeasible and loaded nothing. *)
Definition glpk_infeasible : solver :=
  fun _ => Solved (mkResults [infeasible_info]) (fun _ => None).

Definition glpk_missing : solver := fun _ => Unavailable.

Definition env_ready : Env := mkEnv true true true false false.

Definition env_bare : Env := mkEnv false true false false false.

(** ** Further readings of a run *)

(** The shell commands a trace has run, in order. *)
Fixpoint commands (t : list event) : list string :=
  match t with
  | [] => []
  | Shell cmd :: rest => cmd :: commands rest
  | _ :: rest => commands rest
  end.

Definition pip_pyomo : string := "pip install -q pyomo".
Definition apt_glpk : string := "apt-get install -y -qq glpk-utils".
Definition conda_glpk : string := "conda install -c conda-forge glpk ".

(** The data with other demand bounds. *)
Definition with_demand (d : Data) (b c : Q) : Data :=
  {| pB := pB d; pC := pC d; rB := rB d; rC := rC d;
     dB := b; dC := c; T := T d |}.

(** The data with other production rates. *)
Definition with_rates (d : Data) (r s : Q) : Data :=
  {| pB := pB d; pC := pC d; rB := r; rC := s;
     dB := dB d; dC := dC d; T := T d |}.

(** An integer that binary floating point holds exactly: of magnitude at
    most 2^53. *)
Definition exact_int (q : Q) : bool :=
  is_integer q && Qle_bool (Qabs q) 9007199254740992.

(** Prices and values for which Python's floating-point evaluation of
    pB*xB + pC*xC is exact: every operand and result is such an integer. *)
Definition float_exact (d : Data) (x y : Q) : bool :=
  exact_int (pB d) && exact_int (pC d) && exact_int x && exact_int y &&
  exact_int (pB d * x) && exact_int (pC d * y) &&
  exact_int (pB d * x + pC d * y).

(** Data in which an hour of bands earns as much as an hour of coils
    (25 * 200 = 50 * 100) and the hours do not cover both demands. *)
Definition tie_data : Data :=
  {| pB := 25; pC := 50; rB := 200; rC := 100; dB := 6000; dC := 4000; T := 40 |}.

(** * Properties *)

(** ** Model construction *)

Lemma truediv_done (a b q : Q) :
  truediv a b = Done q -> ~ b == 0 /\ q = a / b.
Proof.
  unfold truediv. destruct (Qeq_bool b 0) eqn:E; intros H; inversion H.
  split; [|reflexivity]. intros Hb. apply Qeq_bool_iff in Hb. congruence.
Qed.

Lemma truediv_nonzero (a b : Q) : ~ b == 0 -> truediv a b = Done (a / b).
Proof.
  intros Hb. unfold truediv. destruct (Qeq_bool b 0) eqn:E; [|reflexivity].
  apply Qeq_bool_iff in E. contradiction.
Qed.

Lemma construct_inv (d : Data) (m : ConcreteModel) :
  result (construct d) = Done m ->
  ~ rB d == 0 /\ ~ rC d == 0 /\
  m = [ ("xB", Var NonNegativeReals (Some 0, Some (dB d)));
        ("xC", Var NonNegativeReals (Some 0, Some (dC d)));
        ("cost", Objective (Sum (Prod (Num (pB d)) (Ref "xB"))
                                (Prod (Num (pC d)) (Ref "xC"))) maximize);
        ("cnstr1", Constraint (Sum (Prod (Num (1 / rB d)) (Ref "xB"))
                                   (Prod (Num (1 / rC d)) (Ref "xC")))
                              LessEq (Num (T d))) ] /\
  trace (construct d) = declarations m.
Proof.
  unfold construct, result, trace, lift, setattr, emit, ret, bind.
  destruct (truediv 1 (rB d)) as [cB|e] eqn:EB; simpl; [|discriminate].
  destruct (truediv 1 (rC d)) as [cC|e] eqn:EC; simpl; [|discriminate].
  apply truediv_done in EB, EC. destruct EB as [HB ->], EC as [HC ->].
  intros H. inversion H; subst. repeat split; assumption.
Qed.

Lemma construct_ok (d : Data) :
  ~ rB d == 0 -> ~ rC d == 0 -> exists m, result (construct d) = Done m.
Proof.
  intros HB HC.
  unfold construct, result, lift, setattr, emit, ret, bind.
  rewrite (truediv_nonzero 1 _ HB), (truediv_nonzero 1 _ HC). simpl.
  eexists. reflexivity.
Qed.

Lemma feasible_iff (d : Data) (m : ConcreteModel) (a : assignment) :
  result (construct d) = Done m ->
  (feasible m a = true <->
   (0 <= a "xB" /\ a "xB" <= dB d) /\
   (0 <= a "xC" /\ a "xC" <= dC d) /\
   1 / rB d * a "xB" + 1 / rC d * a "xC" <= T d).
Proof.
  intros H. apply construct_inv in H. destruct H as (_ & _ & -> & _).
  unfold feasible. simpl.
  rewrite !andb_true_iff, !Qle_bool_iff. tauto.
Qed.

Lemma optimum_iff (d : Data) (m : ConcreteModel) (a : assignment) :
  result (construct d) = Done m ->
  (optimum m a <->
   feasible m a = true /\
   forall a', feasible m a' = true ->
              pB d * a' "xB" + pC d * a' "xC" <= pB d * a "xB" + pC d * a "xC").
Proof.
  intros H. pose proof (construct_inv _ _ H) as (_ & _ & Hm & _).
  unfold optimum. split; intros [Hf Hbest]; split; try assumption.
  - intros a' Ha'.
    apply (Hbest "cost" (Sum (Prod (Num (pB d)) (Ref "xB"))
                             (Prod (Num (pC d)) (Ref "xC"))) maximize);
      [rewrite Hm; simpl; auto | assumption].
  - intros name e s Hin a' Ha'. rewrite Hm in Hin. simpl in Hin.
    destruct Hin as [E|[E|[E|[E|[]]]]]; inversion E; subst.
    simpl. apply Hbest. assumption.
Qed.

(** ** The feasible region and its optimum *)

Lemma capacity_forms (d : Data) (x y : Q) :
  1 / rB d * x + 1 / rC d * y == x / rB d + y / rC d.
Proof. unfold Qdiv. ring. Qed.

Lemma feasible_spec (d : Data) (m : ConcreteModel) (a : assignment) :
  result (construct d) = Done m ->
  (feasible m a = true <->
   within_bounds d (a "xB") (a "xC") /\ capacity_spec d (a "xB") (a "xC")).
Proof.
  intros H. rewrite (feasible_iff d m a H).
  unfold within_bounds, capacity_spec. rewrite capacity_forms. tauto.
Qed.

Lemma steel_constructs :
  exists m, result (construct steel_data) = Done m.
Proof. eexists. vm_compute. reflexivity. Qed.

Lemma steel_feasible_iff (m : ConcreteModel) (a : assignment) :
  result (construct steel_data) = Done m ->
  (feasible m a = true <->
   (0 <= a "xB" /\ a "xB" <= 6000) /\ (0 <= a "xC" /\ a "xC" <= 4000) /\
   (1 # 200) * a "xB" + (1 # 140) * a "xC" <= 40).
Proof. intros H. apply (feasible_iff steel_data m a H). Qed.

Lemma steel_optimum_iff (m : ConcreteModel) (a : assignment) :
  result (construct steel_data) = Done m ->
  (optimum m a <-> a "xB" == 6000 /\ a "xC" == 1400).
Proof.
  intros H. rewrite (optimum_iff steel_data m a H). simpl.
  rewrite (steel_feasible_iff m a H). split.
  - intros [Hf Hbest].
    assert (Hp : feasible m (point 6000 1400) = true).
    { apply (steel_feasible_iff m _ H). unfold point; simpl. lra. }
    apply Hbest in Hp. unfold point in Hp; simpl in Hp. lra.
  - intros [HB HC]. split; [lra|].
    intros a' Ha'. apply (steel_feasible_iff m a' H) in Ha'. lra.
Qed.

(** ** The analytic optimum *)

Section Hours.
(** In hours: [u], [v] are the hours given to the two products, [a] and [b]
    what an hour of each earns, [ub] and [vb] the hours their demands take. *)
Variables a b ub vb t : Q.
Hypothesis b_nonneg : 0 <= b.
Hypothesis a_first : b <= a.
Hypothesis ub_nonneg : 0 <= ub.
Hypothesis vb_nonneg : 0 <= vb.
Hypothesis t_nonneg : 0 <= t.

Let hA : Q := Qmin ub t.
Let hB : Q := Qmin vb (t - hA).

Lemma hours_feasible :
  (0 <= hA /\ hA <= ub) /\ (0 <= hB /\ hB <= vb) /\ hA + hB <= t.
Proof using ub_nonneg vb_nonneg t_nonneg.
  unfold hB, hA.
  destruct (Q.min_spec ub t) as [[? E]|[? E]]; rewrite E;
    destruct (Q.min_spec vb (t - Qmin ub t)) as [[? E']|[? E']];
    rewrite E in *; rewrite E'; lra.
Qed.

Lemma hours_best (u v : Q) :
  0 <= u -> u <= ub -> 0 <= v -> v <= vb -> u + v <= t ->
  a * u + b * v <= a * hA + b * hB.
Proof using All.
  intros. unfold hB, hA.
  destruct (Q.min_spec ub t) as [[? E]|[? E]]; rewrite E;
    destruct (Q.min_spec vb (t - Qmin ub t)) as [[? E']|[? E']];
    rewrite E in *; rewrite E'; nra.
Qed.
End Hours.

Lemma to_hours (x r bound : Q) :
  0 < r -> 0 <= x -> x <= bound -> 0 <= x / r /\ x / r <= bound / r.
Proof.
  intros Hr H0 Hb.
  assert (Hi : 0 < / r) by (apply Qinv_lt_0_compat; assumption).
  unfold Qdiv. split; nra.
Qed.

Lemma from_hours (h r bound : Q) :
  0 < r -> 0 <= h -> h <= bound / r -> 0 <= h * r /\ h * r <= bound.
Proof.
  intros Hr H0 Hb.
  assert (E : bound / r * r == bound) by (field; lra).
  split; [nra|]. rewrite <- E. nra.
Qed.

Lemma closed_form_feasible (d : Data) (m : ConcreteModel) :
  sensible d -> result (construct d) = Done m ->
  feasible m (point (fst (closed_form d)) (snd (closed_form d))) = true.
Proof.
  intros (HpB & HpC & HrB & HrC & HdB & HdC & HT) H.
  apply (feasible_spec d m _ H).
  unfold within_bounds, capacity_spec, point; simpl.
  assert (HuB : 0 <= dB d / rB d) by (apply (to_hours (dB d) (rB d) (dB d)); lra).
  assert (HuC : 0 <= dC d / rC d) by (apply (to_hours (dC d) (rC d) (dC d)); lra).
  unfold closed_form.
  destruct (Qle_bool (pC d * rC d) (pB d * rB d)); simpl.
  - destruct (hours_feasible (dB d / rB d) (dC d / rC d) (T d) HuB HuC HT)
      as ((A0 & A1) & (B0 & B1) & Hsum).
    repeat split; try (apply (from_hours _ _ _ HrB A0 A1));
      try (apply (from_hours _ _ _ HrC B0 B1)).
    setoid_replace (Qmin (dB d / rB d) (T d) * rB d / rB d)
      with (Qmin (dB d / rB d) (T d)) by (field; lra).
    setoid_replace (Qmin (dC d / rC d) (T d - Qmin (dB d / rB d) (T d)) * rC d / rC d)
      with (Qmin (dC d / rC d) (T d - Qmin (dB d / rB d) (T d))) by (field; lra).
    assumption.
  - destruct (hours_feasible (dC d / rC d) (dB d / rB d) (T d) HuC HuB HT)
      as ((A0 & A1) & (B0 & B1) & Hsum).
    repeat split; try (apply (from_hours _ _ _ HrB B0 B1));
      try (apply (from_hours _ _ _ HrC A0 A1)).
    setoid_replace (Qmin (dC d / rC d) (T d) * rC d / rC d)
      with (Qmin (dC d / rC d) (T d)) by (field; lra).
    setoid_replace (Qmin (dB d / rB d) (T d - Qmin (dC d / rC d) (T d)) * rB d / rB d)
      with (Qmin (dB d / rB d) (T d - Qmin (dC d / rC d) (T d))) by (field; lra).
    lra.
Qed.

Lemma closed_form_best (d : Data) (x y : Q) :
  sensible d ->
  within_bounds d x y -> capacity_spec d x y ->
  pB d * x + pC d * y
  <= pB d * fst (closed_form d) + pC d * snd (closed_form d).
Proof.
  intros (HpB & HpC & HrB & HrC & HdB & HdC & HT) ((Hx0 & Hx1) & (Hy0 & Hy1)) Hcap.
  unfold capacity_spec in Hcap.
  destruct (to_hours x (rB d) (dB d) HrB Hx0 Hx1) as (Hu0 & Hu1).
  destruct (to_hours y (rC d) (dC d) HrC Hy0 Hy1) as (Hv0 & Hv1).
  assert (HuB : 0 <= dB d / rB d) by lra.
  assert (HuC : 0 <= dC d / rC d) by lra.
  assert (Ex : pB d * x == pB d * rB d * (x / rB d)) by (field; lra).
  assert (Ey : pC d * y == pC d * rC d * (y / rC d)) by (field; lra).
  assert (HeB : 0 <= pB d * rB d) by nra.
  assert (HeC : 0 <= pC d * rC d) by nra.
  rewrite Ex, Ey. unfold closed_form.
  destruct (Qle_bool (pC d * rC d) (pB d * rB d)) eqn:E; simpl.
  - apply Qle_bool_iff in E.
    pose proof (hours_best (pB d * rB d) (pC d * rC d) (dB d / rB d) (dC d / rC d)
                  (T d) HeC E HuB HuC HT (x / rB d) (y / rC d)
                  Hu0 Hu1 Hv0 Hv1 Hcap) as Hbest.
    lra.
  - assert (E' : pB d * rB d <= pC d * rC d).
    { destruct (Qlt_le_dec (pB d * rB d) (pC d * rC d)) as [L|L]; [lra|].
      apply Qle_bool_iff in L. congruence. }
    assert (Hcap' : y / rC d + x / rB d <= T d) by lra.
    pose proof (hours_best (pC d * rC d) (pB d * rB d) (dC d / rC d) (dB d / rB d)
                  (T d) HeB E' HuC HuB HT (y / rC d) (x / rB d)
                  Hv0 Hv1 Hu0 Hu1 Hcap') as Hbest.
    lra.
Qed.

(** For sensible data the analytic optimum is an optimal solution of the
    declared model: an optimum exists. *)
Lemma closed_form_optimum (d : Data) (m : ConcreteModel) :
  sensible d -> result (construct d) = Done m ->
  optimum m (point (fst (closed_form d)) (snd (closed_form d))).
Proof.
  intros Hd H. apply (optimum_iff d m _ H). split.
  - apply closed_form_feasible; assumption.
  - intros a' Ha'. apply (feasible_spec d m a' H) in Ha'. destruct Ha' as [Hb Hc].
    unfold point; simpl. apply closed_form_best; assumption.
Qed.

Lemma sensible_constructs (d : Data) :
  sensible d -> exists m, result (construct d) = Done m.
Proof.
  intros (_ & _ & HrB & HrC & _). apply construct_ok; intros E; rewrite E in *; lra.
Qed.

Lemma steel_sensible : sensible steel_data.
Proof. unfold sensible; simpl. repeat split; lra. Qed.

Lemma steel_closed_form :
  fst (closed_form steel_data) == 6000 /\ snd (closed_form steel_data) == 1400.
Proof. split; vm_compute; reflexivity. Qed.

(** ** Runs of the script *)

Lemma bind_done {A B : Type} (m : Run A) (k : A -> Run B) (a : A) :
  result m = Done a ->
  bind m k = ((trace m ++ trace (k a))%list, result (k a)).
Proof.
  destruct m as [t o]; simpl. intros ->. simpl. destruct (k a); reflexivity.
Qed.

Lemma status_loop (infos : list SolverInfo) :
  for_each infos (fun info => print [Info info])
  = (map (fun info => Printed [Info info]) infos, Done tt).
Proof.
  induction infos as [|i rest IH]; [reflexivity|].
  simpl. rewrite IH. reflexivity.
Qed.

Lemma loaded_inv (d : Data) (m : ConcreteModel) (vals : values) :
  result (construct d) = Done m -> loaded m vals = true ->
  exists x y, vals "xB" = Some x /\ vals "xC" = Some y.
Proof.
  intros H. apply construct_inv in H. destruct H as (_ & _ & -> & _).
  unfold loaded; simpl.
  destruct (vals "xB") as [x|]; [|discriminate].
  destruct (vals "xC") as [y|]; [|discriminate].
  intros _. exists x, y. split; reflexivity.
Qed.

Lemma report_loaded (d : Data) (m : ConcreteModel) (sol : SolverResults)
      (vals : values) (x y : Q) :
  result (construct d) = Done m ->
  vals "xB" = Some x -> vals "xC" = Some y ->
  report m sol vals
  = ((status_lines sol ++
      value_lines (Number (Qred (pB d * x + pC d * y)))
                  (Number (Qred x)) (Number (Qred y)))%list,
     Done tt).
Proof.
  intros H Hx Hy. apply construct_inv in H. destruct H as (_ & _ & -> & _).
  unfold report, status_lines. rewrite status_loop.
  unfold call, print, emit, ret, raise, bind, value_lines; simpl.
  rewrite Hx, Hy. simpl. reflexivity.
Qed.

Lemma script_solved (d : Data) (glpk : solver) (m : ConcreteModel)
      (sol : SolverResults) (vals : values) :
  result (construct d) = Done m -> glpk m = Solved sol vals ->
  complete_script d glpk
  = ((declarations m ++ Solve m :: trace (report m sol vals))%list,
     result (report m sol vals)).
Proof.
  intros H Hg. unfold complete_script.
  rewrite (bind_done _ _ m H).
  pose proof (construct_inv _ _ H) as (_ & _ & _ & ->).
  assert (Hs : solve glpk m = ([Solve m], Done (sol, vals))).
  { unfold solve, emit, ret, bind. rewrite Hg. reflexivity. }
  rewrite Hs. simpl. destruct (report m sol vals); reflexivity.
Qed.

Lemma script_unavailable (d : Data) (glpk : solver) (m : ConcreteModel) :
  result (construct d) = Done m -> glpk m = Unavailable ->
  complete_script d glpk
  = ((declarations m ++ [Solve m])%list, Raised ApplicationError).
Proof.
  intros H Hg. unfold complete_script.
  rewrite (bind_done _ _ m H).
  pose proof (construct_inv _ _ H) as (_ & _ & _ & ->).
  unfold solve, emit, raise, ret, bind. rewrite Hg. reflexivity.
Qed.

Lemma printed_number_app (label : string) (t1 t2 : list event) :
  printed_number label (t1 ++ t2)
  = match printed_number label t1 with
    | Some q => Some q
    | None => printed_number label t2
    end.
Proof.
  induction t1 as [|e rest IH]; [reflexivity|].
  destruct e as [cmd|name c|m0|name|items]; simpl; try exact IH.
  destruct items as [|v1 [|v2 [|v3 tl]]]; try exact IH;
    destruct v1; try exact IH; destruct v2; try exact IH.
  destruct (String.eqb s label); [reflexivity | exact IH].
Qed.

Lemma printed_number_declarations (label : string) (m : ConcreteModel) :
  printed_number label (declarations m) = None.
Proof. induction m as [|nc rest IH]; [reflexivity | exact IH]. Qed.

Lemma printed_number_status (label : string) (sol : SolverResults) :
  printed_number label (status_lines sol) = None.
Proof.
  unfold status_lines. induction (Solver sol) as [|i rest IH]; [reflexivity | exact IH].
Qed.

(** What the three report lines show when the solver has loaded [x] and [y]. *)
Lemma script_reports (d : Data) (glpk : solver) (m : ConcreteModel)
      (sol : SolverResults) (vals : values) (x y : Q) :
  result (construct d) = Done m -> glpk m = Solved sol vals ->
  vals "xB" = Some x -> vals "xC" = Some y ->
  let t := trace (complete_script d glpk) in
  result (complete_script d glpk) = Done tt /\
  printed_number z_label t = Some (Qred (pB d * x + pC d * y)) /\
  printed_number bands_label t = Some (Qred x) /\
  printed_number coils_label t = Some (Qred y).
Proof.
  intros H Hg Hx Hy.
  rewrite (script_solved d glpk m sol vals H Hg).
  rewrite (report_loaded d m sol vals x y H Hx Hy). unfold trace, result; simpl.
  split; [reflexivity|].
  change (Solve m :: (status_lines sol ++ ?v)%list)
    with (([Solve m] ++ status_lines sol ++ v)%list).
  rewrite !printed_number_app, !printed_number_declarations,
          !printed_number_status.
  repeat split; reflexivity.
Qed.

Lemma steel_model_constructed : result (construct steel_data) = Done steel_model.
Proof. vm_compute. reflexivity. Qed.

Lemma faithful_loaded (d : Data) (glpk : solver) (m : ConcreteModel)
      (sol : SolverResults) (vals : values) :
  result (construct d) = Done m -> glpk m = Solved sol vals ->
  reports_optimal sol = true -> faithful glpk m ->
  exists x y, vals "xB" = Some x /\ vals "xC" = Some y /\
              optimum m (total vals) /\
              total vals "xB" = x /\ total vals "xC" = y.
Proof.
  intros H Hg Hopt Hf. unfold faithful in Hf. rewrite Hg in Hf.
  destruct (Hf Hopt) as [Hl Ho].
  destruct (loaded_inv d m vals H Hl) as (x & y & Hx & Hy).
  exists x, y.
  split; [exact Hx|]. split; [exact Hy|]. split; [exact Ho|].
  unfold total. rewrite Hx, Hy. split; reflexivity.
Qed.

Lemma glpk_answering_faithful (d : Data) (m : ConcreteModel) (x y : Q) :
  result (construct d) = Done m -> optimum m (point x y) ->
  faithful (glpk_answering x y) m.
Proof.
  intros H Ho. unfold faithful, glpk_answering. intros _. split.
  - apply construct_inv in H. destruct H as (_ & _ & -> & _). reflexivity.
  - exact Ho.
Qed.

Lemma steel_point_optimum : optimum steel_model (point 6000 1400).
Proof.
  apply (steel_optimum_iff _ _ steel_model_constructed).
  unfold point; simpl. split; reflexivity.
Qed.

(** C1: with the literals of the script, the declared program has one optimal
    solution, xB = 6000 and xC = 1400, with objective value 192000; it is the
    analytic optimum; and when the solver reports an optimal termination and
    keeps its word, the script completes and prints exactly these values. *)
Theorem steel_optimum_reported (glpk : solver) (m : ConcreteModel)
        (sol : SolverResults) (vals : values) :
  result (construct steel_data) = Done m ->
  glpk m = Solved sol vals -> reports_optimal sol = true -> faithful glpk m ->
  (forall a, optimum m a <-> a "xB" == 6000 /\ a "xC" == 1400) /\
  (forall z, optimal_value m "cost" z <-> z == 192000) /\
  (fst (closed_form steel_data) == 6000 /\ snd (closed_form steel_data) == 1400) /\
  result (complete_script steel_data glpk) = Done tt /\
  printed_number z_label (trace (complete_script steel_data glpk)) = Some 192000 /\
  printed_number bands_label (trace (complete_script steel_data glpk)) = Some 6000 /\
  printed_number coils_label (trace (complete_script steel_data glpk)) = Some 1400.
Proof.
  intros H Hg Hopt Hf.
  split; [intros a; apply (steel_optimum_iff m a H)|].
  split.
  { intros z. unfold optimal_value. split.
    - intros (a & e & s & Ho & He & Hz).
      apply (steel_optimum_iff m a H) in Ho. destruct Ho as [HB HC].
      pose proof (construct_inv _ _ H) as (_ & _ & Hm & _).
      rewrite Hm in He. simpl in He. inversion He; subst e s.
      rewrite Hz. simpl. rewrite HB, HC. reflexivity.
    - intros Hz. exists (point 6000 1400).
      pose proof (construct_inv _ _ H) as (_ & _ & Hm & _).
      eexists. exists maximize. split; [|split].
      + apply (steel_optimum_iff m _ H). unfold point; simpl. split; reflexivity.
      + rewrite Hm. simpl. reflexivity.
      + rewrite Hz. unfold point; simpl. reflexivity. }
  split; [exact steel_closed_form|].
  destruct (faithful_loaded _ _ _ _ _ H Hg Hopt Hf)
    as (x & y & Hx & Hy & Ho & Tx & Ty).
  apply (steel_optimum_iff m _ H) in Ho. rewrite Tx, Ty in Ho.
  destruct Ho as [HB HC].
  destruct (script_reports steel_data glpk m sol vals x y H Hg Hx Hy)
    as (Hr & Hz & Hb & Hc).
  split; [exact Hr|].
  rewrite Hz, Hb, Hc.
  split; [|split]; f_equal.
  - transitivity (Qred 192000); [apply Qred_complete | reflexivity].
    rewrite HB, HC. reflexivity.
  - transitivity (Qred 6000); [apply Qred_complete | reflexivity]. exact HB.
  - transitivity (Qred 1400); [apply Qred_complete | reflexivity]. exact HC.
Qed.

Lemma steel_optimum_reported_witness :
  faithful (glpk_answering 6000 1400) steel_model /\
  printed_number z_label
    (trace (complete_script steel_data (glpk_answering 6000 1400)))
  = Some 192000.
Proof.
  assert (Hf : faithful (glpk_answering 6000 1400) steel_model).
  { exact (glpk_answering_faithful steel_data steel_model 6000 1400
             steel_model_constructed steel_point_optimum). }
  split; [exact Hf|].
  exact (proj1 (proj2 (proj2 (proj2 (proj2
    (steel_optimum_reported (glpk_answering 6000 1400) steel_model
       (mkResults [optimal_info]) (at_point 6000 1400)
       steel_model_constructed eq_refl eq_refl Hf)))))).
Defined.

(** ** What the reported point satisfies *)

Lemma reported_point (d : Data) (glpk : solver) (m : ConcreteModel)
      (sol : SolverResults) (vals : values) :
  result (construct d) = Done m ->
  glpk m = Solved sol vals -> reports_optimal sol = true -> faithful glpk m ->
  exists xB xC,
    printed_number bands_label (trace (complete_script d glpk)) = Some xB /\
    printed_number coils_label (trace (complete_script d glpk)) = Some xC /\
    feasible m (point xB xC) = true.
Proof.
  intros H Hg Hopt Hf.
  destruct (faithful_loaded _ _ _ _ _ H Hg Hopt Hf)
    as (x & y & Hx & Hy & Ho & Tx & Ty).
  destruct (script_reports d glpk m sol vals x y H Hg Hx Hy)
    as (_ & _ & Hb & Hc).
  exists (Qred x), (Qred y). split; [exact Hb|]. split; [exact Hc|].
  destruct Ho as [Hfe _].
  apply (feasible_spec d m _ H) in Hfe. rewrite Tx, Ty in Hfe.
  apply (feasible_spec d m _ H).
  unfold point; simpl. unfold within_bounds, capacity_spec in *.
  rewrite !Qred_correct. exact Hfe.
Qed.

(** C3: when the solver reports an optimal termination and keeps its word,
    the point the script prints satisfies the capacity constraint
    xB/rB + xC/rC <= T (exactly, over the rationals). *)
Theorem reported_optimum_within_capacity (d : Data) (glpk : solver)
        (m : ConcreteModel) (sol : SolverResults) (vals : values) :
  result (construct d) = Done m ->
  glpk m = Solved sol vals -> reports_optimal sol = true -> faithful glpk m ->
  exists xB xC,
    printed_number bands_label (trace (complete_script d glpk)) = Some xB /\
    printed_number coils_label (trace (complete_script d glpk)) = Some xC /\
    capacity_spec d xB xC.
Proof.
  intros H Hg Hopt Hf.
  destruct (reported_point d glpk m sol vals H Hg Hopt Hf)
    as (xB & xC & Hb & Hc & Hfe).
  exists xB, xC. split; [exact Hb|]. split; [exact Hc|].
  apply (feasible_spec d m _ H) in Hfe. exact (proj2 Hfe).
Qed.

Lemma reported_optimum_within_capacity_witness :
  exists xB xC,
    printed_number bands_label
      (trace (complete_script steel_data (glpk_answering 6000 1400))) = Some xB /\
    printed_number coils_label
      (trace (complete_script steel_data (glpk_answering 6000 1400))) = Some xC /\
    capacity_spec steel_data xB xC.
Proof.
  exact (reported_optimum_within_capacity steel_data (glpk_answering 6000 1400)
           steel_model (mkResults [optimal_info]) (at_point 6000 1400)
           steel_model_constructed eq_refl eq_refl
           (glpk_answering_faithful steel_data steel_model 6000 1400
              steel_model_constructed steel_point_optimum)).
Defined.

(** C4: under the same conditions each printed decision variable lies within
    its declared bounds, 0 <= xB <= dB and 0 <= xC <= dC. *)
Theorem reported_optimum_within_bounds (d : Data) (glpk : solver)
        (m : ConcreteModel) (sol : SolverResults) (vals : values) :
  result (construct d) = Done m ->
  glpk m = Solved sol vals -> reports_optimal sol = true -> faithful glpk m ->
  exists xB xC,
    printed_number bands_label (trace (complete_script d glpk)) = Some xB /\
    printed_number coils_label (trace (complete_script d glpk)) = Some xC /\
    (0 <= xB /\ xB <= dB d) /\ (0 <= xC /\ xC <= dC d).
Proof.
  intros H Hg Hopt Hf.
  destruct (reported_point d glpk m sol vals H Hg Hopt Hf)
    as (xB & xC & Hb & Hc & Hfe).
  exists xB, xC. split; [exact Hb|]. split; [exact Hc|].
  apply (feasible_spec d m _ H) in Hfe. exact (proj1 Hfe).
Qed.

Lemma reported_optimum_within_bounds_witness :
  exists xB xC,
    printed_number bands_label
      (trace (complete_script steel_data (glpk_answering 6000 1400))) = Some xB /\
    printed_number coils_label
      (trace (complete_script steel_data (glpk_answering 6000 1400))) = Some xC /\
    (0 <= xB /\ xB <= 6000) /\ (0 <= xC /\ xC <= 4000).
Proof.
  exact (reported_optimum_within_bounds steel_data (glpk_answering 6000 1400)
           steel_model (mkResults [optimal_info]) (at_point 6000 1400)
           steel_model_constructed eq_refl eq_refl
           (glpk_answering_faithful steel_data steel_model 6000 1400
              steel_model_constructed steel_point_optimum)).
Defined.

(** ** Sensitivity to the data *)

Lemma with_T_feasible_mono (d : Data) (t1 t2 : Q) (m1 m2 : ConcreteModel)
      (a : assignment) :
  t1 <= t2 ->
  result (construct (with_T d t1)) = Done m1 ->
  result (construct (with_T d t2)) = Done m2 ->
  feasible m1 a = true -> feasible m2 a = true.
Proof.
  intros Ht H1 H2 Hf.
  apply (feasible_iff _ m1 a H1) in Hf. apply (feasible_iff _ m2 a H2).
  simpl in *. repeat split; try tauto. lra.
Qed.

Lemma sensible_with_T (d : Data) (t : Q) :
  sensible d -> 0 <= t -> sensible (with_T d t).
Proof. unfold sensible; simpl. tauto. Qed.

Lemma sensible_optimal_value (d : Data) (m : ConcreteModel) :
  sensible d -> result (construct d) = Done m ->
  optimal_value m "cost"
    (pB d * fst (closed_form d) + pC d * snd (closed_form d)).
Proof.
  intros Hd H. unfold optimal_value.
  exists (point (fst (closed_form d)) (snd (closed_form d))).
  pose proof (construct_inv _ _ H) as (_ & _ & Hm & _).
  eexists. exists maximize. split; [|split].
  - apply closed_form_optimum; assumption.
  - rewrite Hm. simpl. reflexivity.
  - unfold point; simpl. reflexivity.
Qed.

(** C5: with prices, rates and demand bounds held fixed, the optimal objective
    value does not decrease when T grows: for T1 <= T2, the optimal value of
    the model built with T2 is at least that of the model built with T1; and
    for sensible data and 0 <= T1 both optimal values exist. *)
Theorem optimal_value_monotone_in_T (d : Data) (t1 t2 : Q)
        (m1 m2 : ConcreteModel) :
  t1 <= t2 ->
  result (construct (with_T d t1)) = Done m1 ->
  result (construct (with_T d t2)) = Done m2 ->
  (forall z1 z2, optimal_value m1 "cost" z1 -> optimal_value m2 "cost" z2 ->
                 z1 <= z2) /\
  (sensible d -> 0 <= t1 ->
   exists z1 z2, optimal_value m1 "cost" z1 /\ optimal_value m2 "cost" z2).
Proof.
  intros Ht H1 H2. split.
  - intros z1 z2 (a1 & e1 & s1 & Ho1 & He1 & Hz1) (a2 & e2 & s2 & Ho2 & He2 & Hz2).
    pose proof (construct_inv _ _ H1) as (_ & _ & Hm1 & _).
    pose proof (construct_inv _ _ H2) as (_ & _ & Hm2 & _).
    rewrite Hm1 in He1. rewrite Hm2 in He2. simpl in He1, He2.
    inversion He1; subst e1 s1. inversion He2; subst e2 s2.
    rewrite Hz1, Hz2. simpl.
    apply (optimum_iff _ m1 a1 H1) in Ho1. apply (optimum_iff _ m2 a2 H2) in Ho2.
    destruct Ho1 as [Hf1 _]. destruct Ho2 as [_ Hbest2].
    simpl in Hbest2. apply Hbest2.
    exact (with_T_feasible_mono d t1 t2 m1 m2 a1 Ht H1 H2 Hf1).
  - intros Hd H0.
    assert (H0' : 0 <= t2) by lra.
    eexists. eexists. split.
    + exact (sensible_optimal_value _ m1 (sensible_with_T d t1 Hd H0) H1).
    + exact (sensible_optimal_value _ m2 (sensible_with_T d t2 Hd H0') H2).
Qed.

Lemma optimal_value_monotone_in_T_witness :
  (forall z1 z2,
     optimal_value (model_of (with_T steel_data 40)) "cost" z1 ->
     optimal_value (model_of (with_T steel_data 50)) "cost" z2 ->
     z1 <= z2) /\
  (exists z1 z2,
     optimal_value (model_of (with_T steel_data 40)) "cost" z1 /\
     optimal_value (model_of (with_T steel_data 50)) "cost" z2).
Proof.
  assert (Ht : 40 <= 50) by (vm_compute; discriminate).
  assert (H0 : 0 <= 40) by (vm_compute; discriminate).
  destruct (optimal_value_monotone_in_T steel_data 40 50
              (model_of (with_T steel_data 40))
              (model_of (with_T steel_data 50))
              Ht eq_refl eq_refl) as [Hmono Hexists].
  split; [exact Hmono | exact (Hexists steel_sensible H0)].
Defined.

(** C6: built with dB = 0, the model has xB = 0 in every optimal solution. *)
Theorem zero_demand_forces_zero_bands (d : Data) (m : ConcreteModel)
        (a : assignment) :
  dB d == 0 -> result (construct d) = Done m -> optimum m a -> a "xB" == 0.
Proof.
  intros Hd H [Hf _]. apply (feasible_iff d m a H) in Hf.
  destruct Hf as ((H0 & H1) & _). rewrite Hd in H1.
  apply Qle_antisym; assumption.
Qed.

Lemma zero_demand_optimum :
  optimum (model_of (with_dB steel_data 0)) (point 0 4000).
Proof.
  assert (H : result (construct (with_dB steel_data 0))
              = Done (model_of (with_dB steel_data 0))) by reflexivity.
  apply (optimum_iff _ _ _ H). split.
  - vm_compute. reflexivity.
  - intros a' Ha'. apply (feasible_iff _ _ a' H) in Ha'.
    simpl in Ha'. unfold point; simpl. lra.
Qed.

Lemma zero_demand_forces_zero_bands_witness :
  optimum (model_of (with_dB steel_data 0)) (point 0 4000) /\
  point 0 4000 "xB" == 0.
Proof.
  split; [exact zero_demand_optimum|].
  refine (zero_demand_forces_zero_bands (with_dB steel_data 0)
            (model_of (with_dB steel_data 0)) (point 0 4000) _ eq_refl
            zero_demand_optimum).
  reflexivity.
Defined.

(** C10: with the literals of the script the optimum exists and is unique; at
    it the capacity constraint is tight (xB/rB + xC/rC = T), the band demand
    bound is tight (xB = dB = 6000) and the coil demand bound is slack
    (xC = 1400 < dC = 4000). *)
Theorem steel_optimum_active_set (m : ConcreteModel) :
  result (construct steel_data) = Done m ->
  (exists a, optimum m a) /\
  (forall a a', optimum m a -> optimum m a' ->
                a "xB" == a' "xB" /\ a "xC" == a' "xC") /\
  (forall a, optimum m a ->
     a "xB" / rB steel_data + a "xC" / rC steel_data == T steel_data /\
     6000 / 200 + 1400 / 140 == 40 /\
     a "xB" == dB steel_data /\ dB steel_data == 6000 /\
     a "xC" == 1400 /\ a "xC" < dC steel_data /\ dC steel_data == 4000).
Proof.
  intros H. split; [|split].
  - exists (point 6000 1400). apply (steel_optimum_iff m _ H).
    unfold point; simpl. split; reflexivity.
  - intros a a' Ha Ha'.
    apply (steel_optimum_iff m _ H) in Ha, Ha'.
    destruct Ha as [HB HC], Ha' as [HB' HC'].
    rewrite HB, HC, HB', HC'. split; reflexivity.
  - intros a Ha. apply (steel_optimum_iff m _ H) in Ha. destruct Ha as [HB HC].
    simpl. rewrite HB, HC. repeat split; try reflexivity.
Qed.

Lemma steel_optimum_active_set_witness :
  exists a, optimum steel_model a.
Proof.
  exact (proj1 (steel_optimum_active_set steel_model steel_model_constructed)).
Defined.

(** ** The constraint as coded and as specified *)

(** C9: with rB = 200, rC = 140, T = 40 the declared constraint
    (1/rB)*xB + (1/rC)*xC <= T holds at a point exactly when the
    specification's xB/rB + xC/rC <= T does, for every pair of rationals and
    for every pair of reals. *)
Theorem cnstr1_refines_capacity :
  result (construct steel_data) = Done steel_model /\
  (forall xB xC : Q,
     cnstr1_holds steel_model (point xB xC) = true <->
     capacity_spec steel_data xB xC) /\
  (forall xB xC : Q,
     capacity_spec steel_data xB xC <-> xB / 200 + xC / 140 <= 40) /\
  (forall xB xC : R,
     cnstr1_holdsR steel_model (pointR xB xC) <->
     capacity_specR steel_data xB xC) /\
  (forall xB xC : R,
     capacity_specR steel_data xB xC <-> (xB / 200 + xC / 140 <= 40)%R).
Proof.
  split; [exact steel_model_constructed|].
  split; [|split; [|split]].
  - intros xB xC. unfold cnstr1_holds, capacity_spec; simpl.
    rewrite Qle_bool_iff. unfold point; simpl.
    rewrite <- (capacity_forms steel_data xB xC). simpl. reflexivity.
  - intros xB xC. unfold capacity_spec; simpl. reflexivity.
  - intros xB xC. unfold cnstr1_holdsR, capacity_specR, pointR; simpl.
    unfold Q2R; simpl. split; intros; lra.
  - intros xB xC. unfold capacity_specR; simpl. unfold Q2R; simpl.
    split; intros; lra.
Qed.

(** ** Status and queries *)

Lemma report_trace (d : Data) (m : ConcreteModel) (sol : SolverResults)
      (vals : values) :
  result (construct d) = Done m ->
  exists tail,
    trace (report m sol vals) = (status_lines sol ++ Call "cost" :: tail)%list /\
    existsb is_status_print tail = false /\
    all_in Reporting tail.
Proof.
  intros H. apply construct_inv in H. destruct H as (_ & _ & -> & _).
  unfold report, status_lines. rewrite status_loop.
  unfold call, print, emit, ret, raise, bind, all_in; simpl.
  destruct (vals "xB") as [x|]; destruct (vals "xC") as [y|]; simpl;
    eexists; (split; [reflexivity|]); (split; [reflexivity|]);
    repeat constructor.
Qed.

Lemma status_lines_no_call (sol : SolverResults) :
  existsb is_call (status_lines sol) = false.
Proof.
  unfold status_lines. induction (Solver sol) as [|i rest IH]; [reflexivity | exact IH].
Qed.

Lemma declarations_no_call (m : ConcreteModel) :
  existsb is_call (declarations m) = false.
Proof. induction m as [|nc rest IH]; [reflexivity | exact IH]. Qed.

Lemma status_before_queries_no_status (t : list event) :
  existsb is_status_print t = false -> status_before_queries t = true.
Proof.
  induction t as [|e rest IH]; [reflexivity|].
  simpl. intros Hn. apply orb_false_iff in Hn. destruct Hn as [_ Hrest].
  rewrite Hrest, (IH Hrest). destruct (is_call e); reflexivity.
Qed.

Lemma status_before_queries_app (t1 t2 : list event) :
  existsb is_call t1 = false ->
  status_before_queries (t1 ++ t2) = status_before_queries t2.
Proof.
  induction t1 as [|e rest IH]; [reflexivity|].
  simpl. intros Hn. apply orb_false_iff in Hn. destruct Hn as [He Hrest].
  rewrite He, (IH Hrest). reflexivity.
Qed.

(** C2 (as amended): when [solve] returns, every block of [sol['Solver']] is
    printed, in order, before the first solution value is queried, no status
    line follows a query, and [model.cost()] is queried whatever the status
    says; when [solve] raises, nothing is printed and nothing is queried. *)
Theorem status_printed_before_values_read (d : Data) (glpk : solver)
        (m : ConcreteModel) :
  result (construct d) = Done m ->
  status_before_queries (trace (complete_script d glpk)) = true /\
  match glpk m with
  | Solved sol vals =>
      exists tail,
        trace (complete_script d glpk)
        = (declarations m ++ Solve m :: status_lines sol ++ Call "cost" :: tail)%list /\
        existsb is_status_print tail = false
  | Unavailable =>
      trace (complete_script d glpk) = (declarations m ++ [Solve m])%list /\
      result (complete_script d glpk) = Raised ApplicationError
  end.
Proof.
  intros H. destruct (glpk m) as [|sol vals] eqn:Hg.
  - rewrite (script_unavailable d glpk m H Hg). unfold trace, result; simpl.
    split; [|split; reflexivity].
    rewrite status_before_queries_app by apply declarations_no_call.
    reflexivity.
  - rewrite (script_solved d glpk m sol vals H Hg). unfold trace at 1 3; simpl.
    destruct (report_trace d m sol vals H) as (tail & -> & Hn & _).
    split; [|exists tail; split; [reflexivity | exact Hn]].
    rewrite status_before_queries_app by apply declarations_no_call.
    change (Solve m :: (status_lines sol ++ Call "cost" :: tail)%list)
      with (([Solve m] ++ status_lines sol ++ Call "cost" :: tail)%list).
    rewrite status_before_queries_app by reflexivity.
    rewrite status_before_queries_app by apply status_lines_no_call.
    simpl. rewrite Hn. simpl. apply status_before_queries_no_status. exact Hn.
Qed.

Lemma status_printed_before_values_read_witness :
  status_before_queries (trace (complete_script steel_data glpk_infeasible)) = true /\
  exists tail,
    trace (complete_script steel_data glpk_infeasible)
    = (declarations steel_model ++ Solve steel_model ::
       status_lines (mkResults [infeasible_info]) ++ Call "cost" :: tail)%list /\
    existsb is_status_print tail = false.
Proof.
  exact (status_printed_before_values_read steel_data glpk_infeasible
           steel_model steel_model_constructed).
Defined.

Lemma negative_capacity_infeasible (a : assignment) :
  feasible (model_of (with_T steel_data (-1))) a = false.
Proof.
  destruct (feasible (model_of (with_T steel_data (-1))) a) eqn:Hf; [|reflexivity].
  assert (H : result (construct (with_T steel_data (-1)))
              = Done (model_of (with_T steel_data (-1)))) by reflexivity.
  assert (Hc : (0 <= a "xB" /\ a "xB" <= 6000) /\
               (0 <= a "xC" /\ a "xC" <= 4000) /\
               (1 # 200) * a "xB" + (1 # 140) * a "xC" <= - (1))
    by exact (proj1 (feasible_iff _ _ a H) Hf).
  lra.
Qed.

(** C2 as stated fails: after a status that is not optimal the script
    still queries the solution values -- with the literals of the script, and
    with T = -1, where no point is feasible and "infeasible" is the true
    answer. *)
Lemma queries_not_guarded_by_status :
  ~ queries_guarded_by_status steel_data /\
  ~ queries_guarded_by_status (with_T steel_data (-1)) /\
  result (complete_script (with_T steel_data (-1)) glpk_infeasible)
  = Raised ValueError.
Proof.
  split; [|split; [|reflexivity]]; intros Hguard.
  - specialize (Hguard glpk_infeasible steel_model (mkResults [infeasible_info])
                       (fun _ => None) steel_model_constructed eq_refl eq_refl).
    vm_compute in Hguard. discriminate.
  - specialize (Hguard glpk_infeasible (model_of (with_T steel_data (-1)))
                       (mkResults [infeasible_info]) (fun _ => None)
                       eq_refl eq_refl eq_refl).
    vm_compute in Hguard. discriminate.
Qed.

(** ** Order of the steps *)

Lemma bind_trace {A B : Type} (m : Run A) (k : A -> Run B) :
  trace (bind m k)
  = (trace m ++ match result m with
                | Done a => trace (k a)
                | Raised _ => []
                end)%list.
Proof.
  destruct m as [t [a|e]]; simpl.
  - destruct (k a); reflexivity.
  - rewrite app_nil_r. reflexivity.
Qed.

Lemma bind_result {A B : Type} (m : Run A) (k : A -> Run B) :
  result (bind m k)
  = match result m with
    | Done a => result (k a)
    | Raised e => Raised e
    end.
Proof. destruct m as [t [a|e]]; simpl; [destruct (k a)|]; reflexivity. Qed.

Lemma install_steps (env : Env) :
  all_in Installation (trace (install env)).
Proof.
  destruct env as [[] [] [] [] []]; vm_compute; repeat constructor.
Qed.

Lemma construct_steps (d : Data) :
  all_in Construction (trace (construct d)).
Proof.
  unfold construct, lift, setattr, emit, ret, bind, all_in.
  destruct (truediv 1 (rB d)); simpl; [destruct (truediv 1 (rC d)); simpl|];
    repeat constructor.
Qed.

Lemma status_lines_steps (sol : SolverResults) :
  all_in Reporting (status_lines sol).
Proof.
  unfold all_in, status_lines.
  induction (Solver sol) as [|i rest IH]; simpl; constructor; auto.
Qed.

Lemma report_steps (d : Data) (m : ConcreteModel) (sol : SolverResults)
      (vals : values) :
  result (construct d) = Done m -> all_in Reporting (trace (report m sol vals)).
Proof.
  intros H. destruct (report_trace d m sol vals H) as (tail & -> & _ & Ht).
  apply Forall_app. split; [apply status_lines_steps|].
  constructor; [reflexivity | exact Ht].
Qed.

Lemma report_done_inv (d : Data) (m : ConcreteModel) (sol : SolverResults)
      (vals : values) :
  result (construct d) = Done m -> result (report m sol vals) = Done tt ->
  exists x y, vals "xB" = Some x /\ vals "xC" = Some y.
Proof.
  intros H. apply construct_inv in H. destruct H as (_ & _ & -> & _).
  unfold report. rewrite status_loop.
  unfold call, print, emit, ret, raise, bind, result; simpl.
  destruct (vals "xB") as [x|]; destruct (vals "xC") as [y|]; simpl;
    try discriminate.
  intros _. exists x, y. split; reflexivity.
Qed.

Lemma script_is_one_execution (d : Data) (glpk : solver) :
  one_execution (trace (complete_script d glpk)).
Proof.
  unfold one_execution.
  destruct (result (construct d)) as [m|e] eqn:H.
  - destruct (glpk m) as [|sol vals] eqn:Hg.
    + exists (declarations m), [Solve m], [].
      rewrite (script_unavailable d glpk m H Hg). unfold trace; simpl.
      pose proof (construct_steps d) as Hc.
      pose proof (construct_inv _ _ H) as (_ & _ & _ & Ht). rewrite Ht in Hc.
      repeat split; try assumption; repeat constructor.
    + exists (declarations m), [Solve m], (trace (report m sol vals)).
      rewrite (script_solved d glpk m sol vals H Hg). unfold trace at 1; simpl.
      pose proof (construct_steps d) as Hc.
      pose proof (construct_inv _ _ H) as (_ & _ & _ & Ht). rewrite Ht in Hc.
      repeat split; try assumption; try (repeat constructor; fail).
      apply (report_steps d m sol vals H).
  - exists (trace (construct d)), [], [].
    unfold complete_script. rewrite bind_trace, H, !app_nil_r.
    repeat split; try apply construct_steps; repeat constructor.
Qed.

Lemma nothing_is_one_execution : one_execution [].
Proof. exists [], [], []. repeat split; repeat constructor. Qed.

(** The cells, run one after the other, are the complete script. *)
Lemma step_by_step_is_script (d : Data) (glpk : solver) :
  step_by_step d glpk = complete_script d glpk.
Proof.
  unfold step_by_step, complete_script, construct, report,
    cell_model, cell_variables, cell_objective, cell_constraint,
    cell_solve, cell_status, cell_report, solve, lift, setattr, emit, ret.
  destruct (truediv 1 (rB d)) as [cB|e]; [|reflexivity].
  destruct (truediv 1 (rC d)) as [cC|e]; [|reflexivity].
  simpl. destruct (glpk _) as [|sol vals]; simpl; [reflexivity|].
  unfold bind at 1 3. simpl.
  destruct (for_each (Solver sol) (fun info => print [Info info]))
    as [t [[]|e]]; simpl; [|reflexivity].
  unfold call, print, emit, raise, bind; simpl.
  destruct (vals "xB"); destruct (vals "xC"); reflexivity.
Qed.

Lemma solver_calls_app (t1 t2 : list event) :
  solver_calls (t1 ++ t2) = (solver_calls t1 + solver_calls t2)%nat.
Proof.
  induction t1 as [|e rest IH]; [reflexivity|].
  destruct e; simpl; rewrite IH; reflexivity.
Qed.

Lemma solver_calls_other (s : step) (t : list event) :
  s <> Solving -> all_in s t -> solver_calls t = 0%nat.
Proof.
  intros Hs. induction 1 as [|e rest He _ IH]; [reflexivity|].
  destruct e; simpl in *; try exact IH. congruence.
Qed.

Lemma solver_calls_solving (t : list event) :
  all_in Solving t -> solver_calls t = List.length t.
Proof.
  induction 1 as [|e rest He _ IH]; [reflexivity|].
  destruct e; simpl in *; try discriminate. rewrite IH. reflexivity.
Qed.

Lemma one_execution_calls (t : list event) :
  one_execution t -> (solver_calls t <= 1)%nat.
Proof.
  intros (t2 & t3 & t4 & -> & H2 & H3 & Hl & H4).
  rewrite !solver_calls_app.
  rewrite (solver_calls_other Construction t2) by (discriminate || assumption).
  rewrite (solver_calls_other Reporting t4) by (discriminate || assumption).
  rewrite (solver_calls_solving t3 H3). lia.
Qed.

Lemma script_completed (d : Data) (glpk : solver) :
  result (complete_script d glpk) = Done tt ->
  exists m sol vals z xB xC,
    result (construct d) = Done m /\ List.length m = 4%nat /\
    glpk m = Solved sol vals /\
    trace (complete_script d glpk)
    = (declarations m ++ [Solve m] ++ status_lines sol ++ value_lines z xB xC)%list.
Proof.
  intros Hdone.
  destruct (result (construct d)) as [m|e] eqn:H.
  2:{ unfold complete_script in Hdone. rewrite bind_result, H in Hdone.
      discriminate. }
  destruct (glpk m) as [|sol vals] eqn:Hg.
  { rewrite (script_unavailable d glpk m H Hg) in Hdone. discriminate. }
  rewrite (script_solved d glpk m sol vals H Hg) in Hdone |- *.
  unfold result in Hdone at 1. simpl in Hdone.
  destruct (report_done_inv d m sol vals H Hdone) as (x & y & Hx & Hy).
  rewrite (report_loaded d m sol vals x y H Hx Hy). unfold trace; simpl.
  exists m, sol, vals. do 3 eexists.
  split; [reflexivity|]. split.
  { pose proof (construct_inv _ _ H) as (_ & _ & -> & _). reflexivity. }
  split; [exact Hg | reflexivity].
Qed.

Lemma notebook_trace (env : Env) (d : Data) (glpk : solver) :
  trace (notebook env d glpk)
  = (trace (install env) ++
     match result (install env) with
     | Raised _ => []
     | Done _ =>
         trace (complete_script d glpk) ++
         match result (complete_script d glpk) with
         | Raised _ => []
         | Done _ => trace (complete_script d glpk)
         end
     end)%list.
Proof.
  unfold notebook. rewrite bind_trace.
  destruct (result (install env)); [|reflexivity].
  rewrite bind_trace, step_by_step_is_script. reflexivity.
Qed.

Lemma notebook_result (env : Env) (d : Data) (glpk : solver) :
  result (notebook env d glpk) = Done tt ->
  result (install env) = Done tt /\ result (complete_script d glpk) = Done tt.
Proof.
  unfold notebook. rewrite bind_result.
  destruct (result (install env)) as [[]|e]; [|discriminate].
  rewrite bind_result, step_by_step_is_script.
  destruct (result (complete_script d glpk)) as [[]|e] eqn:E; [|discriminate].
  intros _. split; reflexivity.
Qed.

(** C7 (as amended): run from top to bottom, the notebook executes the four
    steps twice -- cell by cell, then once more as the complete script --
    and each execution is sequential and without retry: declarations, at
    most one solver call, reporting, in this order; the second execution
    starts only when the first has completed.  A run that completes performs
    in each execution the four declarations once each, one solver call, one
    status line per block of [sol['Solver']] (one line for a reply of one
    block) and the three queries once each, and the second execution repeats
    the first.  Before them the installation cell branches on what it finds,
    and where it has run pip and completes, the look-up of pyomo has changed
    from not found to found. *)
Theorem notebook_steps_twice_in_order (env : Env) (d : Data) (glpk : solver) :
  (exists t0 t1 t2,
     trace (notebook env d glpk) = (t0 ++ t1 ++ t2)%list /\
     all_in Installation t0 /\ one_execution t1 /\ one_execution t2 /\
     (t2 <> [] -> t1 = trace (complete_script d glpk) /\
                  result (complete_script d glpk) = Done tt)) /\
  (solver_calls (trace (notebook env d glpk)) <= 2)%nat /\
  (result (notebook env d glpk) = Done tt ->
   exists m sol vals z xB xC,
     result (construct d) = Done m /\ List.length m = 4%nat /\
     glpk m = Solved sol vals /\
     List.length (status_lines sol) = List.length (Solver sol) /\
     (List.length (Solver sol) = 1%nat ->
      exists info, status_lines sol = [Printed [Info info]]) /\
     trace (notebook env d glpk)
     = (trace (install env) ++
        (declarations m ++ [Solve m] ++ status_lines sol ++ value_lines z xB xC) ++
        (declarations m ++ [Solve m] ++ status_lines sol ++ value_lines z xB xC))%list) /\
  (In (Shell "pip install -q pyomo") (trace (install env)) ->
   result (install env) = Done tt ->
   which_pyomo env = false /\ which_pyomo_after_pip env = true).
Proof.
  assert (Hshape : exists t0 t1 t2,
     trace (notebook env d glpk) = (t0 ++ t1 ++ t2)%list /\
     all_in Installation t0 /\ one_execution t1 /\ one_execution t2 /\
     (t2 <> [] -> t1 = trace (complete_script d glpk) /\
                  result (complete_script d glpk) = Done tt)).
  { rewrite notebook_trace.
    destruct (result (install env)) as [[]|e].
    - destruct (result (complete_script d glpk)) as [[]|e] eqn:E.
      + exists (trace (install env)), (trace (complete_script d glpk)),
               (trace (complete_script d glpk)).
        split; [reflexivity|]. split; [apply install_steps|].
        split; [apply script_is_one_execution|].
        split; [apply script_is_one_execution|]. intros _. split; reflexivity.
      + exists (trace (install env)), (trace (complete_script d glpk)), [].
        split; [reflexivity|]. split; [apply install_steps|].
        split; [apply script_is_one_execution|].
        split; [apply nothing_is_one_execution|]. intros Hn. congruence.
    - exists (trace (install env)), [], [].
      split; [reflexivity|]. split; [apply install_steps|].
      split; [apply nothing_is_one_execution|].
      split; [apply nothing_is_one_execution|]. intros Hn. congruence. }
  split; [exact Hshape|]. split; [|split].
  - destruct Hshape as (t0 & t1 & t2 & -> & H0 & H1 & H2 & _).
    rewrite !solver_calls_app.
    rewrite (solver_calls_other Installation t0) by (discriminate || assumption).
    pose proof (one_execution_calls t1 H1). pose proof (one_execution_calls t2 H2).
    lia.
  - intros Hdone. destruct (notebook_result env d glpk Hdone) as [Hi Hs].
    destruct (script_completed d glpk Hs) as (m & sol & vals & z & xB & xC & H & Hl & Hg & Ht).
    exists m, sol, vals, z, xB, xC.
    split; [exact H|]. split; [exact Hl|]. split; [exact Hg|].
    split; [unfold status_lines; apply length_map|].
    split.
    + unfold status_lines. destruct (Solver sol) as [|i [|i' rest]]; try discriminate.
      intros _. exists i. reflexivity.
    + rewrite notebook_trace, Hi, Hs, Ht. reflexivity.
  - destruct env as [[] [] [] [] []]; vm_compute; intros Hin Hr;
      try discriminate; try (split; reflexivity);
      repeat match type of Hin with
             | _ \/ _ => destruct Hin as [Hin|Hin]
             | _ = _ => discriminate Hin
             | False => destruct Hin
             end.
Qed.

Lemma notebook_steps_twice_in_order_witness :
  exists m sol vals z xB xC,
    result (construct steel_data) = Done m /\ List.length m = 4%nat /\
    glpk_answering 6000 1400 m = Solved sol vals /\
    List.length (status_lines sol) = List.length (Solver sol) /\
    (List.length (Solver sol) = 1%nat ->
     exists info, status_lines sol = [Printed [Info info]]) /\
    trace (notebook env_bare steel_data (glpk_answering 6000 1400))
    = (trace (install env_bare) ++
       (declarations m ++ [Solve m] ++ status_lines sol ++ value_lines z xB xC) ++
       (declarations m ++ [Solve m] ++ status_lines sol ++ value_lines z xB xC))%list.
Proof.
  exact (proj1 (proj2 (proj2 (notebook_steps_twice_in_order env_bare steel_data
                  (glpk_answering 6000 1400)))) eq_refl).
Defined.

(** C7 as stated fails.  With everything installed and the solver answering
    the optimum in one block, a run from top to bottom calls the solver
    twice: the four steps are executed twice, not once.  The installation
    cell branches: a run on a machine with everything installed and a run on
    a bare machine perform different steps.  And there is state beyond the
    variables: on the bare machine pip runs and the assertion after it
    passes. *)
Lemma notebook_not_once_nor_straight_line :
  solver_calls (trace (notebook env_ready steel_data (glpk_answering 6000 1400)))
  = 2%nat /\
  ~ four_steps_once /\
  ~ straight_line (fun env glpk => notebook env steel_data glpk) /\
  ~ straight_line (fun env _ => install env) /\
  ~ no_state_beyond_variables.
Proof.
  split; [reflexivity|]. split; [|split; [|split]].
  - intros Hs.
    specialize (Hs env_ready steel_data (glpk_answering 6000 1400)).
    vm_compute in Hs. lia.
  - intros Hs.
    specialize (Hs env_ready (glpk_answering 6000 1400)
                   env_bare (glpk_answering 6000 1400) eq_refl eq_refl).
    vm_compute in Hs. discriminate.
  - intros Hs.
    specialize (Hs env_ready glpk_missing env_bare glpk_missing eq_refl eq_refl).
    vm_compute in Hs. discriminate.
  - intros Hs. specialize (Hs env_bare).
    assert (Hin : In (Shell "pip install -q pyomo") (trace (install env_bare)))
      by (left; reflexivity).
    specialize (Hs Hin). vm_compute in Hs. discriminate.
Qed.

(** ** Shape of the declared model *)

(** C8: the constructed model has exactly four components: two continuous
    variables bounded on both sides, one linear objective with sense
    maximize and one linear constraint of the form <=.  The script declares
    nothing else: its declarations are these four, this model is what the
    solver receives, and only reporting follows. *)
Theorem declared_model_shape (d : Data) (m : ConcreteModel) :
  result (construct d) = Done m ->
  List.length m = 4%nat /\
  count is_var m = 2%nat /\ count bounded_continuous_var m = 2%nat /\
  count is_objective m = 1%nat /\ count linear_maximize_objective m = 1%nat /\
  count is_constraint m = 1%nat /\ count linear_le_constraint m = 1%nat /\
  trace (construct d) = declarations m /\
  forall glpk, exists rest,
    trace (complete_script d glpk) = (declarations m ++ Solve m :: rest)%list /\
    all_in Reporting rest.
Proof.
  intros H. pose proof (construct_inv _ _ H) as (_ & _ & Hm & Ht).
  do 7 (split; [rewrite Hm; reflexivity|]).
  split; [exact Ht|].
  intros glpk. destruct (glpk m) as [|sol vals] eqn:Hg.
  - exists []. rewrite (script_unavailable d glpk m H Hg).
    split; [reflexivity | constructor].
  - exists (trace (report m sol vals)).
    rewrite (script_solved d glpk m sol vals H Hg).
    split; [reflexivity | apply (report_steps d m sol vals H)].
Qed.

Lemma declared_model_shape_witness :
  List.length steel_model = 4%nat /\
  count bounded_continuous_var steel_model = 2%nat /\
  count linear_maximize_objective steel_model = 1%nat /\
  count linear_le_constraint steel_model = 1%nat.
Proof.
  destruct (declared_model_shape steel_data steel_model eq_refl)
    as (Hlen & _ & Hvars & _ & Hobj & _ & Hcon & _).
  repeat split; assumption.
Defined.

(** * Further properties of the notebook *)

(** ** The installation cell *)

(** X1: the installation cell completes exactly when pyomo is found, before
    or after pip has run; otherwise it stops on the assertion, having run
    pip alone: the GLPK part is never reached. *)
Theorem install_completes_iff (env : Env) :
  (result (install env) = Done tt <->
   which_pyomo env || which_pyomo_after_pip env = true) /\
  (which_pyomo env || which_pyomo_after_pip env = false ->
   result (install env) = Raised AssertionError /\
   trace (install env) = [Shell pip_pyomo]).
Proof.
  destruct env as [[] [] [] [] []]; vm_compute;
    (split; [split; intros H; (reflexivity || discriminate)
            | intros H; (discriminate || (split; reflexivity))]).
Qed.

(** X2: what the installation cell runs: pip exactly when pyomo is not
    found; one GLPK command exactly when pyomo is in place and neither the
    [glpk] look-up nor the file test succeeds -- apt-get on Colab, conda
    elsewhere, never both; nothing at all on a machine where both are found;
    and a failing conda command cannot stop the cell. *)
Theorem install_commands (env : Env) :
  let cs := commands (trace (install env)) in
  (In pip_pyomo cs <-> which_pyomo env = false) /\
  (In apt_glpk cs <->
   (which_pyomo env || which_pyomo_after_pip env) &&
   negb (which_glpk env || isfile_glpk env) && google_colab env = true) /\
  (In conda_glpk cs <->
   (which_pyomo env || which_pyomo_after_pip env) &&
   negb (which_glpk env || isfile_glpk env) && negb (google_colab env) = true) /\
  ~ (In apt_glpk cs /\ In conda_glpk cs) /\
  (cs = [] <-> which_pyomo env && (which_glpk env || isfile_glpk env) = true) /\
  (List.length cs <= 2)%nat /\
  (result (install env) = Done tt \/ result (install env) = Raised AssertionError).
Proof.
  destruct env as [[] [] [] [] []]; vm_compute;
    repeat split; intros; try discriminate; try reflexivity; try tauto;
    try (left; reflexivity); try (right; reflexivity);
    repeat match goal with
           | H : _ \/ _ |- _ => destruct H
           | H : _ /\ _ |- _ => destruct H
           | H : False |- _ => destruct H
           | H : _ = _ |- _ => discriminate H
           end; auto.
Qed.

(** ** Failures of the complete script *)

Lemma construct_zero_rate (d : Data) :
  rB d == 0 \/ rC d == 0 ->
  construct d
  = ([ SetAttr "xB" (Var NonNegativeReals (Some 0, Some (dB d)));
       SetAttr "xC" (Var NonNegativeReals (Some 0, Some (dC d)));
       SetAttr "cost" (Objective (Sum (Prod (Num (pB d)) (Ref "xB"))
                                      (Prod (Num (pC d)) (Ref "xC"))) maximize) ],
     Raised ZeroDivisionError).
Proof.
  intros Hz. unfold construct, lift, setattr, emit, ret, bind, truediv.
  destruct (Qeq_bool (rB d) 0) eqn:EB; simpl; [reflexivity|].
  destruct (Qeq_bool (rC d) 0) eqn:EC; simpl; [reflexivity|].
  destruct Hz as [Hz|Hz]; apply Qeq_bool_iff in Hz; congruence.
Qed.

(** X3: the declarations raise ZeroDivisionError exactly when a production
    rate is zero.  The two variables and the objective are then already
    declared, the constraint is not, and the script stops there: the solver
    is not called and nothing is printed. *)
Theorem zero_rate_stops_before_solve (d : Data) (glpk : solver) :
  (rB d == 0 \/ rC d == 0 <-> result (construct d) = Raised ZeroDivisionError) /\
  (rB d == 0 \/ rC d == 0 ->
   result (complete_script d glpk) = Raised ZeroDivisionError /\
   map step_of (trace (complete_script d glpk))
   = [Construction; Construction; Construction] /\
   trace (complete_script d glpk) = trace (construct d)).
Proof.
  split.
  - split.
    + intros Hz. rewrite (construct_zero_rate d Hz). reflexivity.
    + intros Hr.
      destruct (Qeq_dec (rB d) 0) as [HB|HB]; [left; exact HB|].
      destruct (Qeq_dec (rC d) 0) as [HC|HC]; [right; exact HC|].
      destruct (construct_ok d HB HC) as [m Hm]. congruence.
  - intros Hz. unfold complete_script.
    rewrite bind_result, bind_trace, (construct_zero_rate d Hz).
    unfold result, trace; simpl. repeat split.
Qed.

Lemma report_unloaded (d : Data) (m : ConcreteModel) (sol : SolverResults)
      (vals : values) :
  result (construct d) = Done m ->
  vals "xB" = None \/ vals "xC" = None ->
  report m sol vals = ((status_lines sol ++ [Call "cost"])%list, Raised ValueError).
Proof.
  intros H Hn. apply construct_inv in H. destruct H as (_ & _ & -> & _).
  unfold report, status_lines. rewrite status_loop.
  unfold call, print, emit, ret, raise, bind; simpl.
  destruct (vals "xB") as [x|]; destruct (vals "xC") as [y|]; simpl;
    try reflexivity.
  destruct Hn; discriminate.
Qed.

(** X4: once the declarations have succeeded, how the script ends is decided
    by the solver's reply alone: ApplicationError when the solver is
    unavailable, ValueError (raised by [model.cost()]) when a variable was
    left without value, normal completion otherwise -- whatever the status
    says. *)
Theorem script_result (d : Data) (glpk : solver) (m : ConcreteModel) :
  result (construct d) = Done m ->
  result (complete_script d glpk)
  = match glpk m with
    | Unavailable => Raised ApplicationError
    | Solved _ vals =>
        match vals "xB", vals "xC" with
        | Some _, Some _ => Done tt
        | _, _ => Raised ValueError
        end
    end.
Proof.
  intros H. destruct (glpk m) as [|sol vals] eqn:Hg.
  - rewrite (script_unavailable d glpk m H Hg). reflexivity.
  - rewrite (script_solved d glpk m sol vals H Hg). unfold result at 1; simpl.
    destruct (vals "xB") as [x|] eqn:Hx.
    + destruct (vals "xC") as [y|] eqn:Hy.
      * rewrite (report_loaded d m sol vals x y H Hx Hy). reflexivity.
      * rewrite (report_unloaded d m sol vals H (or_intror Hy)). reflexivity.
    + rewrite (report_unloaded d m sol vals H (or_introl Hx)).
      destruct (vals "xC"); reflexivity.
Qed.

Lemma script_result_witness :
  result (complete_script steel_data glpk_infeasible) = Raised ValueError /\
  result (complete_script steel_data glpk_missing) = Raised ApplicationError /\
  result (complete_script steel_data (glpk_answering 0 0)) = Done tt.
Proof.
  split; [|split].
  - exact (script_result steel_data glpk_infeasible steel_model
             steel_model_constructed).
  - exact (script_result steel_data glpk_missing steel_model
             steel_model_constructed).
  - exact (script_result steel_data (glpk_answering 0 0) steel_model
             steel_model_constructed).
Defined.

(** ** What the report shows *)

(** X5: a run that completes prints the values the solver left in the
    variables, unchanged and unchecked -- whatever the status says and
    whether or not the point is feasible.  The printed z is the objective
    computed from them, z = pB*xB + pC*xC, where that sum is exact in
    floating point: integer prices and values, every product and the sum of
    magnitude at most 2^53. *)
Theorem report_is_consistent (d : Data) (glpk : solver) (m : ConcreteModel)
        (sol : SolverResults) (vals : values) (x y : Q) :
  result (construct d) = Done m -> glpk m = Solved sol vals ->
  vals "xB" = Some x -> vals "xC" = Some y ->
  result (complete_script d glpk) = Done tt /\
  exists z xB xC,
    printed_number z_label (trace (complete_script d glpk)) = Some z /\
    printed_number bands_label (trace (complete_script d glpk)) = Some xB /\
    printed_number coils_label (trace (complete_script d glpk)) = Some xC /\
    xB == x /\ xC == y /\
    (float_exact d x y = true -> z == pB d * xB + pC d * xC).
Proof.
  intros H Hg Hx Hy.
  destruct (script_reports d glpk m sol vals x y H Hg Hx Hy)
    as (Hr & Hz & Hb & Hc).
  split; [exact Hr|].
  exists (Qred (pB d * x + pC d * y)), (Qred x), (Qred y).
  split; [exact Hz|]. split; [exact Hb|]. split; [exact Hc|].
  split; [apply Qred_correct|]. split; [apply Qred_correct|].
  intros _. rewrite !Qred_correct. reflexivity.
Qed.

Lemma report_is_consistent_witness :
  exists z xB xC,
    printed_number z_label
      (trace (complete_script steel_data (glpk_answering 7000 (-5)))) = Some z /\
    printed_number bands_label
      (trace (complete_script steel_data (glpk_answering 7000 (-5)))) = Some xB /\
    printed_number coils_label
      (trace (complete_script steel_data (glpk_answering 7000 (-5)))) = Some xC /\
    xB == 7000 /\ xC == -5 /\ z == pB steel_data * xB + pC steel_data * xC.
Proof.
  destruct (report_is_consistent steel_data (glpk_answering 7000 (-5))
              steel_model (mkResults [optimal_info]) (at_point 7000 (-5))
              7000 (-5) steel_model_constructed eq_refl eq_refl eq_refl)
    as (_ & z & xB & xC & Hz & Hb & Hc & Ex & Ey & Hfl).
  exists z, xB, xC.
  split; [exact Hz|]. split; [exact Hb|]. split; [exact Hc|].
  split; [exact Ex|]. split; [exact Ey|]. apply Hfl. reflexivity.
Defined.

Lemma printed_number_construction (label : string) (t : list event) :
  all_in Construction t -> printed_number label t = None.
Proof.
  induction 1 as [|e rest He _ IH]; [reflexivity|].
  destruct e; simpl in He; try discriminate. exact IH.
Qed.

(** X6: the report is all or nothing.  A run that completes shows all three
    numbers; a run that raises -- at a declaration, in the solver, or in
    [model.cost()] -- shows none of them: there is no partial report. *)
Theorem report_all_or_nothing (d : Data) (glpk : solver) :
  let t := trace (complete_script d glpk) in
  match result (complete_script d glpk) with
  | Done _ =>
      (exists z, printed_number z_label t = Some z) /\
      (exists xB, printed_number bands_label t = Some xB) /\
      (exists xC, printed_number coils_label t = Some xC)
  | Raised _ =>
      printed_number z_label t = None /\
      printed_number bands_label t = None /\
      printed_number coils_label t = None
  end.
Proof.
  intros t. subst t.
  destruct (result (construct d)) as [m|e] eqn:H.
  - destruct (glpk m) as [|sol vals] eqn:Hg.
    + rewrite (script_unavailable d glpk m H Hg). unfold result, trace; simpl.
      rewrite !printed_number_app, !printed_number_declarations.
      repeat split.
    + destruct (vals "xB") as [x|] eqn:Hx; [destruct (vals "xC") as [y|] eqn:Hy|].
      * destruct (script_reports d glpk m sol vals x y H Hg Hx Hy)
          as (-> & Hz & Hb & Hc).
        repeat split; eexists; eassumption.
      * rewrite (script_solved d glpk m sol vals H Hg).
        rewrite (report_unloaded d m sol vals H (or_intror Hy)).
        unfold result, trace; simpl.
        change (Solve m :: (status_lines sol ++ [Call "cost"])%list)
          with (([Solve m] ++ status_lines sol ++ [Call "cost"])%list).
        rewrite !printed_number_app, !printed_number_declarations,
                !printed_number_status.
        repeat split.
      * rewrite (script_solved d glpk m sol vals H Hg).
        rewrite (report_unloaded d m sol vals H (or_introl Hx)).
        unfold result, trace; simpl.
        change (Solve m :: (status_lines sol ++ [Call "cost"])%list)
          with (([Solve m] ++ status_lines sol ++ [Call "cost"])%list).
        rewrite !printed_number_app, !printed_number_declarations,
                !printed_number_status.
        repeat split.
  - unfold complete_script. rewrite bind_result, bind_trace, H, !app_nil_r.
    rewrite !(printed_number_construction _ _ (construct_steps d)).
    repeat split.
Qed.

(** ** Reported objective under different solvers *)

Lemma optimum_same_objective (d : Data) (m : ConcreteModel) (a a' : assignment) :
  result (construct d) = Done m -> optimum m a -> optimum m a' ->
  pB d * a "xB" + pC d * a "xC" == pB d * a' "xB" + pC d * a' "xC".
Proof.
  intros H Ha Ha'.
  apply (optimum_iff d m a H) in Ha. apply (optimum_iff d m a' H) in Ha'.
  destruct Ha as [Hf Hb], Ha' as [Hf' Hb'].
  apply Qle_antisym; [apply Hb'; exact Hf | apply Hb; exact Hf'].
Qed.

(** X7: the printed objective value does not depend on the solver.  Two
    replies that both report an optimal termination and return an optimum
    make the script print the same z, even when they return different
    optimal points -- for prices and returned values whose objective is
    exact in floating point (integers, every product and the sum of
    magnitude at most 2^53). *)
Theorem reported_objective_solver_independent (d : Data) (m : ConcreteModel)
        (glpk glpk' : solver) (sol sol' : SolverResults) (vals vals' : values)
        (x y x' y' : Q) :
  result (construct d) = Done m ->
  glpk m = Solved sol vals -> reports_optimal sol = true -> faithful glpk m ->
  glpk' m = Solved sol' vals' -> reports_optimal sol' = true -> faithful glpk' m ->
  vals "xB" = Some x -> vals "xC" = Some y ->
  vals' "xB" = Some x' -> vals' "xC" = Some y' ->
  float_exact d x y = true -> float_exact d x' y' = true ->
  exists z,
    printed_number z_label (trace (complete_script d glpk)) = Some z /\
    printed_number z_label (trace (complete_script d glpk')) = Some z /\
    z == pB d * x + pC d * y /\ z == pB d * x' + pC d * y'.
Proof.
  intros H Hg Hopt Hf Hg' Hopt' Hf' Hx Hy Hx' Hy' _ _.
  destruct (faithful_loaded _ _ _ _ _ H Hg Hopt Hf)
    as (x0 & y0 & Hx0 & Hy0 & Ho & Tx & Ty).
  destruct (faithful_loaded _ _ _ _ _ H Hg' Hopt' Hf')
    as (x0' & y0' & Hx0' & Hy0' & Ho' & Tx' & Ty').
  assert (E1 : x0 = x) by congruence. assert (E2 : y0 = y) by congruence.
  assert (E3 : x0' = x') by congruence. assert (E4 : y0' = y') by congruence.
  rewrite E1 in Tx. rewrite E2 in Ty. rewrite E3 in Tx'. rewrite E4 in Ty'.
  destruct (script_reports d glpk m sol vals x y H Hg Hx Hy) as (_ & Hz & _).
  destruct (script_reports d glpk' m sol' vals' x' y' H Hg' Hx' Hy') as (_ & Hz' & _).
  pose proof (optimum_same_objective d m _ _ H Ho' Ho) as E.
  rewrite Tx, Ty, Tx', Ty' in E.
  exists (Qred (pB d * x + pC d * y)). split; [exact Hz|]. split.
  - rewrite Hz'. f_equal. apply Qred_complete. exact E.
  - split; [apply Qred_correct|]. rewrite Qred_correct. symmetry. exact E.
Qed.

Lemma tie_optimum (x y : Q) :
  0 <= x -> x <= 6000 -> 0 <= y -> y <= 4000 -> (1 # 200) * x + (1 # 100) * y == 40 ->
  optimum (model_of tie_data) (point x y).
Proof.
  intros Hx0 Hx1 Hy0 Hy1 Hc.
  assert (H : result (construct tie_data) = Done (model_of tie_data)) by reflexivity.
  assert (F : forall a, feasible (model_of tie_data) a = true <->
              (0 <= a "xB" /\ a "xB" <= 6000) /\ (0 <= a "xC" /\ a "xC" <= 4000) /\
              (1 # 200) * a "xB" + (1 # 100) * a "xC" <= 40)
    by (intros a; exact (feasible_iff tie_data _ a H)).
  apply (optimum_iff _ _ _ H). split.
  - apply F. unfold point; simpl. lra.
  - intros a' Ha'. apply F in Ha'. unfold point; simpl. lra.
Qed.

Lemma reported_objective_solver_independent_witness :
  exists z,
    printed_number z_label
      (trace (complete_script tie_data (glpk_answering 6000 1000))) = Some z /\
    printed_number z_label
      (trace (complete_script tie_data (glpk_answering 0 4000))) = Some z /\
    z == pB tie_data * 6000 + pC tie_data * 1000 /\
    z == pB tie_data * 0 + pC tie_data * 4000.
Proof.
  assert (H : result (construct tie_data) = Done (model_of tie_data)) by reflexivity.
  assert (O1 : optimum (model_of tie_data) (point 6000 1000))
    by (apply tie_optimum; lra).
  assert (O2 : optimum (model_of tie_data) (point 0 4000))
    by (apply tie_optimum; lra).
  exact (reported_objective_solver_independent tie_data (model_of tie_data)
           (glpk_answering 6000 1000) (glpk_answering 0 4000)
           (mkResults [optimal_info]) (mkResults [optimal_info])
           (at_point 6000 1000) (at_point 0 4000) 6000 1000 0 4000
           H eq_refl eq_refl (glpk_answering_faithful _ _ _ _ H O1)
           eq_refl eq_refl (glpk_answering_faithful _ _ _ _ H O2)
           eq_refl eq_refl eq_refl eq_refl eq_refl eq_refl).
Defined.

(** ** The feasible region for other data *)

Lemma hours_nonneg (x r : Q) : 0 < r -> 0 <= x -> 0 <= x / r.
Proof. intros Hr Hx. apply (to_hours x r x Hr Hx). apply Qle_refl. Qed.

(** X8: with positive rates, the declared model has a feasible point exactly
    when both demand bounds and the capacity are non-negative; the origin is
    then feasible. *)
Theorem feasible_region_nonempty_iff (d : Data) (m : ConcreteModel) :
  0 < rB d -> 0 < rC d -> result (construct d) = Done m ->
  ((exists a, feasible m a = true) <-> 0 <= dB d /\ 0 <= dC d /\ 0 <= T d) /\
  (feasible m (point 0 0) = true <-> exists a, feasible m a = true).
Proof.
  intros HrB HrC H.
  assert (Horigin : 0 <= dB d /\ 0 <= dC d /\ 0 <= T d ->
                    feasible m (point 0 0) = true).
  { intros (HB & HC & HT). apply (feasible_spec d m _ H).
    unfold within_bounds, capacity_spec, point; simpl.
    repeat split; try apply Qle_refl; try assumption.
    setoid_replace (0 / rB d + 0 / rC d) with 0 by (field; split; lra).
    exact HT. }
  assert (Hneeds : (exists a, feasible m a = true) ->
                   0 <= dB d /\ 0 <= dC d /\ 0 <= T d).
  { intros [a Ha]. apply (feasible_spec d m a H) in Ha.
    destruct Ha as (((Hx0 & Hx1) & (Hy0 & Hy1)) & Hc). unfold capacity_spec in Hc.
    pose proof (hours_nonneg _ _ HrB Hx0). pose proof (hours_nonneg _ _ HrC Hy0).
    repeat split; lra. }
  split; split.
  - exact Hneeds.
  - intros Hd. exists (point 0 0). apply Horigin. exact Hd.
  - intros Ho. exists (point 0 0). exact Ho.
  - intros He. apply Horigin. apply Hneeds. exact He.
Qed.

Lemma feasible_region_nonempty_iff_witness :
  (exists a, feasible steel_model a = true) <->
  0 <= dB steel_data /\ 0 <= dC steel_data /\ 0 <= T steel_data.
Proof.
  assert (HB : 0 < rB steel_data) by reflexivity.
  assert (HC : 0 < rC steel_data) by reflexivity.
  exact (proj1 (feasible_region_nonempty_iff steel_data steel_model HB HC
                  steel_model_constructed)).
Defined.

(** X9: for sensible data (non-negative prices, demands and capacity,
    positive rates) the declared model is neither infeasible nor unbounded:
    it has an optimal value, only one, and it lies between 0 and
    pB*dB + pC*dC. *)
Theorem sensible_model_has_optimum (d : Data) (m : ConcreteModel) :
  sensible d -> result (construct d) = Done m ->
  exists z,
    optimal_value m "cost" z /\
    (forall z', optimal_value m "cost" z' -> z' == z) /\
    0 <= z /\ z <= pB d * dB d + pC d * dC d.
Proof.
  intros Hd H.
  pose proof (closed_form_optimum d m Hd H) as Ho.
  set (a := point (fst (closed_form d)) (snd (closed_form d))) in *.
  pose proof (construct_inv _ _ H) as (_ & _ & Hm & _).
  exists (pB d * a "xB" + pC d * a "xC"). split; [|split].
  - exists a. eexists. exists maximize. split; [exact Ho|]. split.
    + rewrite Hm. simpl. reflexivity.
    + simpl. reflexivity.
  - intros z' (a' & e & s & Ho' & He & Hz).
    rewrite Hm in He. simpl in He. inversion He; subst e s.
    rewrite Hz. simpl. exact (optimum_same_objective d m a' a H Ho' Ho).
  - destruct Ho as [Hf _]. apply (feasible_spec d m a H) in Hf.
    destruct Hf as (((Hx0 & Hx1) & (Hy0 & Hy1)) & _).
    destruct Hd as (HpB & HpC & _). split; nra.
Qed.

Lemma sensible_model_has_optimum_witness :
  exists z,
    optimal_value (model_of tie_data) "cost" z /\
    (forall z', optimal_value (model_of tie_data) "cost" z' -> z' == z) /\
    0 <= z /\ z <= pB tie_data * dB tie_data + pC tie_data * dC tie_data.
Proof.
  assert (Hd : sensible tie_data) by (unfold sensible; simpl; repeat split; lra).
  exact (sensible_model_has_optimum tie_data (model_of tie_data) Hd eq_refl).
Defined.

(** X10: when the capacity covers both demands (dB/rB + dC/rC <= T), meeting
    both demands in full is optimal, and with positive prices it is the only
    optimal solution. *)
Theorem abundant_capacity_meets_demand (d : Data) (m : ConcreteModel) :
  sensible d -> dB d / rB d + dC d / rC d <= T d ->
  result (construct d) = Done m ->
  optimum m (point (dB d) (dC d)) /\
  (0 < pB d -> 0 < pC d ->
   forall a, optimum m a -> a "xB" == dB d /\ a "xC" == dC d).
Proof.
  intros (HpB & HpC & HrB & HrC & HdB & HdC & HT) Hcap H.
  assert (Hfull : feasible m (point (dB d) (dC d)) = true).
  { apply (feasible_spec d m _ H).
    unfold within_bounds, capacity_spec, point; simpl.
    repeat split; try assumption; apply Qle_refl. }
  split.
  - apply (optimum_iff d m _ H). split; [exact Hfull|].
    intros a' Ha'. apply (feasible_spec d m a' H) in Ha'.
    destruct Ha' as (((Hx0 & Hx1) & (Hy0 & Hy1)) & _).
    unfold point; simpl. nra.
  - intros HpB' HpC' a Ha. apply (optimum_iff d m a H) in Ha.
    destruct Ha as [Hf Hbest]. specialize (Hbest _ Hfull).
    unfold point in Hbest; simpl in Hbest.
    apply (feasible_spec d m a H) in Hf.
    destruct Hf as (((Hx0 & Hx1) & (Hy0 & Hy1)) & _).
    split; apply Qle_antisym; try assumption; nra.
Qed.

Lemma abundant_capacity_meets_demand_witness :
  optimum (model_of (with_T steel_data 60)) (point 6000 4000).
Proof.
  assert (Hd : sensible (with_T steel_data 60))
    by (unfold sensible; simpl; repeat split; lra).
  assert (Hc : dB (with_T steel_data 60) / rB (with_T steel_data 60)
               + dC (with_T steel_data 60) / rC (with_T steel_data 60)
               <= T (with_T steel_data 60)) by (vm_compute; discriminate).
  exact (proj1 (abundant_capacity_meets_demand (with_T steel_data 60)
                  (model_of (with_T steel_data 60)) Hd Hc eq_refl)).
Defined.

Lemma room_to_grow (x r bound s : Q) :
  0 < r -> x < bound -> 0 < s ->
  exists e, 0 < e /\ x + e <= bound /\ (x + e) / r <= x / r + s.
Proof.
  intros Hr Hx Hs.
  assert (Hsr : 0 < s * r) by nra.
  assert (Esr : s * r / r == s) by (field; lra).
  assert (Esum : forall e, (x + e) / r == x / r + e / r) by (intros e; field; lra).
  destruct (Q.min_spec (bound - x) (s * r)) as [[Hlt E]|[Hle E]].
  - exists (bound - x). split; [lra|]. split; [lra|].
    rewrite Esum.
    assert (0 <= (bound - x) / r /\ (bound - x) / r <= s * r / r)
      by (apply to_hours; lra).
    lra.
  - exists (s * r). split; [exact Hsr|]. split; [lra|].
    rewrite Esum, Esr. lra.
Qed.

(** X11: when the capacity does not cover both demands
    (T < dB/rB + dC/rC) and both prices are positive, every optimal solution
    uses the capacity in full: xB/rB + xC/rC = T. *)
Theorem scarce_capacity_is_used_up (d : Data) (m : ConcreteModel)
        (a : assignment) :
  sensible d -> 0 < pB d -> 0 < pC d ->
  T d < dB d / rB d + dC d / rC d ->
  result (construct d) = Done m -> optimum m a ->
  a "xB" / rB d + a "xC" / rC d == T d.
Proof.
  intros (_ & _ & HrB & HrC & HdB & HdC & HT) HpB HpC Hscarce H Ha.
  apply (optimum_iff d m a H) in Ha. destruct Ha as [Hf Hbest].
  apply (feasible_spec d m a H) in Hf.
  destruct Hf as (((Hx0 & Hx1) & (Hy0 & Hy1)) & Hc). unfold capacity_spec in Hc.
  destruct (Qlt_le_dec (a "xB" / rB d + a "xC" / rC d) (T d)) as [Hslack|Hfull];
    [|apply Qle_antisym; assumption].
  exfalso.
  set (s := T d - (a "xB" / rB d + a "xC" / rC d)).
  assert (Hs : 0 < s) by (unfold s; lra).
  destruct (Qlt_le_dec (a "xB") (dB d)) as [HxB|HxB].
  - destruct (room_to_grow (a "xB") (rB d) (dB d) s HrB HxB Hs) as (e & He & Hb & Hh).
    assert (Hf' : feasible m (point (a "xB" + e) (a "xC")) = true).
    { apply (feasible_spec d m _ H).
      unfold within_bounds, capacity_spec, point; simpl.
      repeat split; try assumption; try lra. unfold s in Hh. lra. }
    specialize (Hbest _ Hf'). unfold point in Hbest; simpl in Hbest. nra.
  - assert (HxC : a "xC" < dC d).
    { destruct (Qlt_le_dec (a "xC") (dC d)) as [L|L]; [exact L|exfalso].
      assert (Ex : a "xB" == dB d) by (apply Qle_antisym; assumption).
      assert (Ey : a "xC" == dC d) by (apply Qle_antisym; assumption).
      rewrite Ex, Ey in Hc. lra. }
    destruct (room_to_grow (a "xC") (rC d) (dC d) s HrC HxC Hs) as (e & He & Hb & Hh).
    assert (Hf' : feasible m (point (a "xB") (a "xC" + e)) = true).
    { apply (feasible_spec d m _ H).
      unfold within_bounds, capacity_spec, point; simpl.
      repeat split; try assumption; try lra. unfold s in Hh. lra. }
    specialize (Hbest _ Hf'). unfold point in Hbest; simpl in Hbest. nra.
Qed.

Lemma scarce_capacity_is_used_up_witness :
  point 6000 1000 "xB" / rB tie_data + point 6000 1000 "xC" / rC tie_data
  == T tie_data.
Proof.
  assert (Hd : sensible tie_data) by (unfold sensible; simpl; repeat split; lra).
  assert (HB : 0 < pB tie_data) by reflexivity.
  assert (HC : 0 < pC tie_data) by reflexivity.
  assert (Hs : T tie_data < dB tie_data / rB tie_data + dC tie_data / rC tie_data)
    by reflexivity.
  assert (Ho : optimum (model_of tie_data) (point 6000 1000))
    by (apply tie_optimum; lra).
  exact (scarce_capacity_is_used_up tie_data (model_of tie_data)
           (point 6000 1000) Hd HB HC Hs eq_refl Ho).
Defined.

(** ** Sensitivity to the demand bounds and to the capacity *)

(** X12: with prices, rates and capacity held fixed, the optimal objective
    value does not decrease when the demand bounds grow. *)
Theorem optimal_value_monotone_in_demand (d : Data) (b1 c1 b2 c2 : Q)
        (m1 m2 : ConcreteModel) (z1 z2 : Q) :
  b1 <= b2 -> c1 <= c2 ->
  result (construct (with_demand d b1 c1)) = Done m1 ->
  result (construct (with_demand d b2 c2)) = Done m2 ->
  optimal_value m1 "cost" z1 -> optimal_value m2 "cost" z2 ->
  z1 <= z2.
Proof.
  intros Hb Hc H1 H2 (a1 & e1 & s1 & Ho1 & He1 & Hz1) (a2 & e2 & s2 & Ho2 & He2 & Hz2).
  pose proof (construct_inv _ _ H1) as (_ & _ & Hm1 & _).
  pose proof (construct_inv _ _ H2) as (_ & _ & Hm2 & _).
  rewrite Hm1 in He1. rewrite Hm2 in He2. simpl in He1, He2.
  inversion He1; subst e1 s1. inversion He2; subst e2 s2.
  rewrite Hz1, Hz2. simpl.
  apply (optimum_iff _ m1 a1 H1) in Ho1. apply (optimum_iff _ m2 a2 H2) in Ho2.
  destruct Ho1 as [Hf1 _]. destruct Ho2 as [_ Hbest2].
  simpl in Hbest2. apply Hbest2.
  apply (feasible_iff _ m1 a1 H1) in Hf1. apply (feasible_iff _ m2 a1 H2).
  simpl in *. repeat split; try tauto; lra.
Qed.

Lemma optimal_value_monotone_in_demand_witness :
  pB steel_data * 0 + pC steel_data * 4000
  <= pB steel_data * 6000 + pC steel_data * 1400.
Proof.
  assert (Hb : 0 <= 6000) by (vm_compute; discriminate).
  assert (Hc : 4000 <= 4000) by (vm_compute; discriminate).
  assert (V1 : optimal_value (model_of (with_demand steel_data 0 4000)) "cost"
                 (pB steel_data * 0 + pC steel_data * 4000)).
  { exists (point 0 4000). eexists. exists maximize.
    split; [exact zero_demand_optimum|]. split; reflexivity. }
  assert (V2 : optimal_value (model_of (with_demand steel_data 6000 4000)) "cost"
                 (pB steel_data * 6000 + pC steel_data * 1400)).
  { exists (point 6000 1400). eexists. exists maximize.
    split; [exact steel_point_optimum|]. split; reflexivity. }
  exact (optimal_value_monotone_in_demand steel_data 0 4000 6000 4000
           _ _ _ _ Hb Hc eq_refl eq_refl V1 V2).
Defined.

(** X13: with positive rates and no capacity (T = 0) the origin is the only
    point the model allows at most: every feasible point, hence every
    optimal solution, has xB = 0 and xC = 0. *)
Theorem zero_capacity_forces_origin (d : Data) (m : ConcreteModel)
        (a : assignment) :
  0 < rB d -> 0 < rC d -> T d == 0 ->
  result (construct d) = Done m -> feasible m a = true ->
  a "xB" == 0 /\ a "xC" == 0.
Proof.
  intros HrB HrC HT H Hf. apply (feasible_spec d m a H) in Hf.
  destruct Hf as (((Hx0 & Hx1) & (Hy0 & Hy1)) & Hc).
  unfold capacity_spec in Hc. rewrite HT in Hc.
  pose proof (hours_nonneg _ _ HrB Hx0) as Hu.
  pose proof (hours_nonneg _ _ HrC Hy0) as Hv.
  assert (Eu : a "xB" / rB d == 0) by lra.
  assert (Ev : a "xC" / rC d == 0) by lra.
  assert (Ex : a "xB" == a "xB" / rB d * rB d) by (field; lra).
  assert (Ey : a "xC" == a "xC" / rC d * rC d) by (field; lra).
  rewrite Eu in Ex. rewrite Ev in Ey. split; lra.
Qed.

Lemma zero_capacity_forces_origin_witness :
  point 0 0 "xB" == 0 /\ point 0 0 "xC" == 0.
Proof.
  assert (HB : 0 < rB (with_T steel_data 0)) by reflexivity.
  assert (HC : 0 < rC (with_T steel_data 0)) by reflexivity.
  assert (HT : T (with_T steel_data 0) == 0) by reflexivity.
  exact (zero_capacity_forces_origin (with_T steel_data 0)
           (model_of (with_T steel_data 0)) (point 0 0) HB HC HT eq_refl eq_refl).
Defined.
